(** * The WebSocket relay of the gas-monitoring backend

    A shallow embedding of the real-time part of
    [Gas-monitoring-backend28/server.js]: the client registry [clients], the
    connection, message, pong and close handlers, the two broadcast functions
    and the heartbeat sweep, followed by the properties of the fan-out and
    subscription engine.  Three neighbours of the relay come after it: the
    telemetry cache of the dashboard client ([unnamed/part_001]), the table
    of the mock telemetry routes ([routes/telemetryMock.js]) and the loading
    of the route modules ([initializeRoutes]).

    Conventions of the embedding.
    - A ws connection object is a reference [conn]; its mutable fields live in
      the [heap] of the [World], so that the registry sets and the device
      sets alias the same object, as they do in the source.
    - A JavaScript [Set] iterates in insertion order: it is a duplicate-free
      list with [Set_add] appending at the end.
    - [clients.deviceSubscriptions] is a plain object used as a dictionary: a
      [gmap] from device identifier to the set of subscribers.  Only own
      properties are modelled; identifiers that name a member inherited from
      [Object.prototype] lie outside the model.
    - A frame is a JSON object whose fields are carried as strings: the
      server reads [type], [deviceId], [device] and [timestamp] and copies
      everything else through unchanged.
    - [console.log] has no effect on the state and is left out;
      [console.error] appends to [stderr]. *)

From Stdlib Require Import ZArith.
From stdpp Require Import base tactics decidable option list strings gmap fin_maps.

Local Open Scope string_scope.

Abbreviation conn := nat.

(** ** JavaScript values *)

Inductive Error :=
  | SyntaxError
  | TypeError
  | ReferenceError
  | NotOpenError.

(** What [JSON.parse] returns: [null], an object, or a value every property
    read of which is [undefined] (a number, a string, a boolean, an array). *)
Inductive JSON :=
  | JNull
  | JOther
  | JObject (fields : gmap string string).

(** An inbound frame is given by what [JSON.parse] makes of it. *)
Inductive RawFrame :=
  | Unparseable (text : string)
  | JsonText (value : JSON).

(** One reading of the clock: [Date.now()] and [new Date().toISOString()]. *)
Record Date := mkDate { getTime : Z; toISOString : string }.

(** Truthiness of a property that is a string when present. *)
Definition truthy (v : option string) : bool :=
  match v with
  | Some s => bool_decide (s ≠ EmptyString)
  | None => false
  end.

(** [a || b] *)
Definition js_or (a b : option string) : option string :=
  if truthy a then a else b.

(** ** The ws connection object *)

Inductive Frame :=
  | Text (payload : gmap string string)
  | Ping.

(** [readyState] is the numeric code of the source: 0 CONNECTING, 1 OPEN,
    2 CLOSING, 3 CLOSED.  [sent] is what has been written to the channel,
    oldest first; [terminated] records a call of [terminate()].
    [clientType] is the constant of that name which the handlers of the
    connection close over (line 29). *)
Record Socket := mkSocket {
  readyState : Z;
  isAlive : bool;
  lastActivity : Z;
  clientType : string;
  sent : list Frame;
  terminated : bool
}.

Definition set_readyState (r : Z) (s : Socket) : Socket :=
  mkSocket r (isAlive s) (lastActivity s) (clientType s) (sent s) (terminated s).
Definition set_isAlive (b : bool) (s : Socket) : Socket :=
  mkSocket (readyState s) b (lastActivity s) (clientType s) (sent s) (terminated s).
Definition set_lastActivity (t : Z) (s : Socket) : Socket :=
  mkSocket (readyState s) (isAlive s) t (clientType s) (sent s) (terminated s).
Definition set_clientType (t : string) (s : Socket) : Socket :=
  mkSocket (readyState s) (isAlive s) (lastActivity s) t (sent s) (terminated s).
Definition push_frame (f : Frame) (s : Socket) : Socket :=
  mkSocket (readyState s) (isAlive s) (lastActivity s) (clientType s) (sent s ++ [f])
    (terminated s).
Definition set_terminated (s : Socket) : Socket :=
  mkSocket (readyState s) (isAlive s) (lastActivity s) (clientType s) (sent s) true.

(** ** The registry [clients] *)

Record Clients := mkClients {
  consumers : list conn;
  producers : list conn;
  deviceSubscriptions : gmap string (list conn)
}.

Definition Set_add (x : conn) (s : list conn) : list conn :=
  if decide (x ∈ s) then s else s ++ [x].
Definition Set_delete (x : conn) (s : list conn) : list conn :=
  filter (λ y, y ≠ x) s.
Definition Set_has (x : conn) (s : list conn) : bool :=
  bool_decide (x ∈ s).

Definition set_consumers (l : list conn) (c : Clients) : Clients :=
  mkClients l (producers c) (deviceSubscriptions c).
Definition set_producers (l : list conn) (c : Clients) : Clients :=
  mkClients (consumers c) l (deviceSubscriptions c).
Definition set_deviceSubscriptions (m : gmap string (list conn)) (c : Clients) : Clients :=
  mkClients (consumers c) (producers c) m.

(** ** The state of the process *)

Record World := mkWorld {
  clients : Clients;
  heap : conn → Socket;
  stderr : list (string * Error)
}.

Definition update (ws : conn) (f : Socket → Socket) (h : conn → Socket) : conn → Socket :=
  λ x, if decide (x = ws) then f (h x) else h x.

(** ** Handlers run in a state monad with exceptions

    A [Throw] keeps the state reached when the exception was raised. *)

Inductive Completion (A : Type) :=
  | Normal (a : A)
  | Throw (e : Error).
Arguments Normal {A} a.
Arguments Throw {A} e.

Definition JS (A : Type) : Type := World → Completion A * World.

Definition ret {A} (a : A) : JS A := λ w, (Normal a, w).
Definition throw {A} (e : Error) : JS A := λ w, (Throw e, w).
Definition bind {A B} (m : JS A) (k : A → JS B) : JS B :=
  λ w, match m w with
       | (Normal a, w') => k a w'
       | (Throw e, w') => (Throw e, w')
       end.

Notation "'let*' x := m 'in' k" := (bind m (λ x, k))
  (at level 10, x name, m at level 100, k at level 200, only parsing).
Notation "m ;;; k" := (bind m (λ _, k))
  (at level 100, k at level 200, right associativity, only parsing).

(** [try { body } catch (error) { handler }] *)
Definition try_catch {A} (body : JS A) (handler : Error → JS A) : JS A :=
  λ w, match body w with
       | (Normal a, w') => (Normal a, w')
       | (Throw e, w') => handler e w'
       end.

Definition get_clients : JS Clients := λ w, (Normal (clients w), w).
Definition get_socket (ws : conn) : JS Socket := λ w, (Normal (heap w ws), w).
Definition modify_clients (f : Clients → Clients) : JS unit :=
  λ w, (Normal (), mkWorld (f (clients w)) (heap w) (stderr w)).
Definition modify_socket (ws : conn) (f : Socket → Socket) : JS unit :=
  λ w, (Normal (), mkWorld (clients w) (update ws f (heap w)) (stderr w)).
Definition console_error (text : string) (e : Error) : JS unit :=
  λ w, (Normal (), mkWorld (clients w) (heap w) (stderr w ++ [(text, e)])).

(** [set.forEach(body)] over the members present when the loop starts.  The
    bodies of the source delete at most the member being visited, so the
    members visited are exactly these. *)
Fixpoint forEach (l : list conn) (body : conn → JS unit) : JS unit :=
  match l with
  | [] => ret ()
  | x :: l' => body x ;;; forEach l' body
  end.

(** The same loop around a body that updates a counter declared outside. *)
Fixpoint forEach_counting (l : list conn) (body : conn → nat → JS nat) (count : nat) : JS nat :=
  match l with
  | [] => ret count
  | x :: l' => let* count' := body x count in forEach_counting l' body count'
  end.

(** ** The methods of a ws connection that the server calls

    [send] and [ping] throw while the connection is still CONNECTING, write
    the frame when it is OPEN and do nothing once it is CLOSING or CLOSED;
    [terminate] destroys the socket of a connection that is not yet CLOSED,
    which leaves the connection CLOSING until its close event. *)

Definition ws_send (ws : conn) (message : gmap string string) : JS unit :=
  let* s := get_socket ws in
  if decide (readyState s = 0%Z) then throw NotOpenError
  else if decide (readyState s = 1%Z) then modify_socket ws (push_frame (Text message))
  else ret ().

Definition ws_ping (ws : conn) : JS unit :=
  let* s := get_socket ws in
  if decide (readyState s = 0%Z) then throw NotOpenError
  else if decide (readyState s = 1%Z) then modify_socket ws (push_frame Ping)
  else ret ().

Definition terminate_socket (s : Socket) : Socket :=
  set_terminated (if decide (readyState s = 3%Z) then s else set_readyState 2%Z s).

Definition ws_terminate (ws : conn) : JS unit :=
  modify_socket ws terminate_socket.

(** ** The connection handler (lines 26-126) *)

(** Lines 46-49 and 79-82: create the device's set when the device has none,
    then add the connection to it. *)
Definition subscribed (deviceId : string) (ws : conn) (c : Clients) : Clients :=
  let subs := deviceSubscriptions c in
  let subs := if decide (subs !! deviceId = None) then <[deviceId := []]> subs else subs in
  set_deviceSubscriptions (alter (Set_add ws) deviceId subs) c.

Definition subscribe_device (deviceId : string) (ws : conn) : JS unit :=
  modify_clients (subscribed deviceId ws).

Definition connection_message (clientType : string) (now : Date) : gmap string string :=
  {[ "type" := "connection"; "status" := "connected"; "clientType" := clientType;
     "timestamp" := toISOString now;
     "message" := "Connected to Gas Monitoring WebSocket Server" ]}.

(** The query parameters [clientType] and [deviceId] of the request URL are
    [None] when absent. *)
Definition on_connection (ws : conn) (clientTypeParam deviceId : option string)
    (now : Date) : JS unit :=
  let clientType := default "consumer" (js_or clientTypeParam (Some "consumer")) in
  modify_socket ws (set_clientType clientType) ;;;
  modify_socket ws (set_isAlive true) ;;;
  modify_socket ws (set_lastActivity (getTime now)) ;;;
  (if decide (clientType = "producer") then
     modify_clients (λ c, set_producers (Set_add ws (producers c)) c)
   else
     modify_clients (λ c, set_consumers (Set_add ws (consumers c)) c) ;;;
     match deviceId with
     | Some d => if truthy deviceId then subscribe_device d ws else ret ()
     | None => ret ()
     end) ;;;
  ws_send ws (connection_message clientType now).

(** [ws.on('pong')] *)
Definition on_pong (ws : conn) (now : Date) : JS unit :=
  modify_socket ws (set_isAlive true) ;;;
  modify_socket ws (set_lastActivity (getTime now)).

(** ** The broadcast functions (lines 129-185) *)

(** Is the client a member of some device's set?  (lines 158-159) *)
Definition isSubscribedToSpecificDevice (client : conn) (c : Clients) : bool :=
  bool_decide (map_Exists (λ _ deviceClients, Set_has client deviceClients)
                 (deviceSubscriptions c)).

(** [data.deviceId || data.device] *)
Definition telemetry_deviceId (data : gmap string string) : option string :=
  js_or (data !! "deviceId") (data !! "device").

(** [data] after line 133 has given it a timestamp. *)
Definition with_timestamp (data : gmap string string) (now : Date) : gmap string string :=
  if truthy (data !! "timestamp") then data else <["timestamp" := toISOString now]> data.

(** The object that is serialised on lines 137-141; the spread of [data]
    comes last and wins. *)
Definition telemetry_message (data : gmap string string) (now : Date) : gmap string string :=
  let data := with_timestamp data now in
  data ∪ {[ "type" := "telemetry"; "timestamp" := default EmptyString (data !! "timestamp") ]}.

Definition broadcastTelemetry (data : gmap string string) (now : Date) : JS nat :=
  let deviceId := telemetry_deviceId data in
  let message := telemetry_message data now in
  let subscriberCount := 0 in
  let* c := get_clients in
  let* subscriberCount :=
    match deviceId with
    | Some d =>
        if truthy deviceId then
          match deviceSubscriptions c !! d with
          | Some deviceClients =>
              forEach_counting deviceClients (λ client subscriberCount,
                let* s := get_socket client in
                if decide (readyState s = 1%Z) then
                  ws_send client message ;;; ret (S subscriberCount)
                else ret subscriberCount) subscriberCount
          | None => ret subscriberCount
          end
        else ret subscriberCount
    | None => ret subscriberCount
    end in
  let* c := get_clients in
  forEach_counting (consumers c) (λ client subscriberCount,
    let* c := get_clients in
    let* s := get_socket client in
    if negb (isSubscribedToSpecificDevice client c) && bool_decide (readyState s = 1%Z) then
      ws_send client message ;;; ret (S subscriberCount)
    else ret subscriberCount) subscriberCount.

Definition alarm_message (data : gmap string string) (now : Date) : gmap string string :=
  data ∪ {[ "type" := "alarm"; "timestamp" := toISOString now ]}.

Definition broadcastAlarm (data : gmap string string) (now : Date) : JS unit :=
  let message := alarm_message data now in
  let* c := get_clients in
  forEach (consumers c) (λ client,
    let* s := get_socket client in
    if decide (readyState s = 1%Z) then ws_send client message else ret ()).

(** ** The message handler (lines 61-96) *)

Definition JSON_parse (message : RawFrame) : JS JSON :=
  match message with
  | Unparseable _ => throw SyntaxError
  | JsonText v => ret v
  end.

(** [data.key]: a [TypeError] on [null]. *)
Definition get_prop (data : JSON) (key : string) : JS (option string) :=
  match data with
  | JNull => throw TypeError
  | JOther => ret None
  | JObject o => ret (o !! key)
  end.

Definition fields_of (data : JSON) : gmap string string :=
  match data with
  | JObject o => o
  | _ => ∅
  end.

Definition pong_message (now : Date) : gmap string string :=
  {[ "type" := "pong"; "timestamp" := toISOString now ]}.

Definition subscription_confirmed (deviceId : string) (now : Date) : gmap string string :=
  {[ "type" := "subscription_confirmed"; "deviceId" := deviceId;
     "timestamp" := toISOString now ]}.

(** Lines 66-92: the dispatch on [data.type], once the frame is parsed and
    the activity timestamp refreshed. *)
Definition dispatch (ws : conn) (data : JSON) (now : Date) : JS unit :=
  let* type := get_prop data "type" in
  if decide (type = Some "telemetry") then
    broadcastTelemetry (fields_of data) now ;;; ret ()
  else if decide (type = Some "alarm") then
    broadcastAlarm (fields_of data) now
  else if decide (type = Some "ping") then
    ws_send ws (pong_message now)
  else if decide (type = Some "subscribe") then
    let* deviceId := get_prop data "deviceId" in
    match deviceId with
    | Some d =>
        if truthy deviceId then
          subscribe_device d ws ;;;
          ws_send ws (subscription_confirmed d now)
        else ret ()
    | None => ret ()
    end
  else ret ().

Definition on_message (ws : conn) (message : RawFrame) (now : Date) : JS unit :=
  try_catch
    (let* data := JSON_parse message in
     modify_socket ws (set_lastActivity (getTime now)) ;;;
     dispatch ws data now)
    (λ error, console_error "Error parsing message:" error).

(** ** The close handler (lines 99-116) *)

(** Lines 105-107 and 260-262: delete the client from every device's set. *)
Definition delete_from_all (ws : conn) (c : Clients) : Clients :=
  set_deviceSubscriptions (Set_delete ws <$> deviceSubscriptions c) c.

(** Lines 110-115 and 270-275: delete every device whose set is empty. *)
Definition cleanup_empty (c : Clients) : Clients :=
  set_deviceSubscriptions
    (filter (λ kv, length kv.2 ≠ 0) (deviceSubscriptions c)) c.

Definition on_close (ws : conn) : JS unit :=
  modify_clients (λ c, set_producers (Set_delete ws (producers c)) c) ;;;
  modify_clients (λ c, set_consumers (Set_delete ws (consumers c)) c) ;;;
  modify_clients (delete_from_all ws) ;;;
  modify_clients cleanup_empty.

(** ** The heartbeat sweep (lines 234-279) *)

(** The global scope the module runs in.  [server.js] binds only
    [WebSocketServer] (line 5), so the identifier [WebSocket] read on lines
    245 and 263 is looked up among the globals of the runtime: [Some n] when
    the runtime defines a global [WebSocket] whose [OPEN] is [n], [None] when
    it defines none and the lookup throws a [ReferenceError]. *)
Record Runtime := mkRuntime { WebSocket_OPEN : option Z }.

Definition read_WebSocket_OPEN (rt : Runtime) : JS Z :=
  match WebSocket_OPEN rt with
  | Some n => ret n
  | None => throw ReferenceError
  end.

(** The callback of line 239, for the members of [clients.producers]. *)
Definition check_producer (rt : Runtime) (now : Z) (client : conn) : JS unit :=
  let* s := get_socket client in
  if decide (now - lastActivity s > 120000)%Z then
    ws_terminate client ;;;
    modify_clients (λ c, set_producers (Set_delete client (producers c)) c)
  else
    let* OPEN := read_WebSocket_OPEN rt in
    if decide (readyState s = OPEN) then ws_ping client else ret ().

(** The callback of line 252, for the members of [clients.consumers]. *)
Definition check_consumer (rt : Runtime) (now : Z) (client : conn) : JS unit :=
  let* s := get_socket client in
  if decide (now - lastActivity s > 120000)%Z then
    ws_terminate client ;;;
    modify_clients (λ c, set_consumers (Set_delete client (consumers c)) c) ;;;
    modify_clients (delete_from_all client)
  else
    let* OPEN := read_WebSocket_OPEN rt in
    if decide (readyState s = OPEN) then ws_ping client else ret ().

(** One tick of the interval timer: the callback that [startHeartbeat]
    installs. *)
Definition heartbeat (rt : Runtime) (now : Date) : JS unit :=
  let now := getTime now in
  let* c := get_clients in
  forEach (producers c) (check_producer rt now) ;;;
  let* c := get_clients in
  forEach (consumers c) (check_consumer rt now) ;;;
  modify_clients cleanup_empty.

(** ** Events of the process *)

(** A connection object as ws hands it to the connection handler: OPEN, with
    nothing sent yet. *)
Definition new_socket : Socket := mkSocket 1 false 0 EmptyString [] false.

Definition initial : World :=
  mkWorld (mkClients [] [] ∅) (λ _, mkSocket 3 false 0 EmptyString [] false) [].

Inductive Event :=
  | Connection (ws : conn) (clientType deviceId : option string)
  | Message (ws : conn) (message : RawFrame)
  | Pong (ws : conn)
  | Close (ws : conn)
  | Tick
  | ExportedTelemetry (data : gmap string string)
  | ExportedAlarm (data : gmap string string)
  | Closing (ws : conn).

(** What the process runs on an event.  ws creates the connection object
    before it calls the connection handler and marks it CLOSED before it
    calls the close handler; [Closing] is the channel leaving OPEN because
    the peer went away. *)
Definition handle (rt : Runtime) (now : Date) (ev : Event) : JS unit :=
  match ev with
  | Connection ws clientType deviceId =>
      modify_socket ws (λ _, new_socket) ;;; on_connection ws clientType deviceId now
  | Message ws message => on_message ws message now
  | Pong ws => on_pong ws now
  | Close ws => modify_socket ws (set_readyState 3%Z) ;;; on_close ws
  | Tick => heartbeat rt now
  | ExportedTelemetry data => broadcastTelemetry data now ;;; ret ()
  | ExportedAlarm data => broadcastAlarm data now
  | Closing ws => modify_socket ws (set_readyState 2%Z)
  end.

(** A connection object is referenced by the registry. *)
Definition referenced (ws : conn) (c : Clients) : Prop :=
  ws ∈ consumers c ∨ ws ∈ producers c ∨
  map_Exists (λ _ deviceClients, ws ∈ deviceClients) (deviceSubscriptions c).

(** Events arrive only for connections that exist: a connection event brings
    a new object, the others concern an object that has not been closed. *)
Definition enabled (ev : Event) (w : World) : Prop :=
  match ev with
  | Connection ws _ _ => readyState (heap w ws) = 3%Z ∧ ¬ referenced ws (clients w)
  | Message ws _ | Pong ws | Close ws | Closing ws => readyState (heap w ws) ≠ 3%Z
  | Tick | ExportedTelemetry _ | ExportedAlarm _ => True
  end.

Inductive reachable (rt : Runtime) : World → Prop :=
  | reachable_initial : reachable rt initial
  | reachable_step w now ev w' :
      reachable rt w → enabled ev w → handle rt now ev w = (Normal (), w') →
      reachable rt w'.

(** * Loading the routes

    [initializeRoutes], lines 192-227 of [server.js].  [require] returns
    the module or throws; which modules load is a parameter.  The six
    variables of line 10 are [None] while undefined, and a variable that is
    still undefined when the routes are mounted is replaced by an empty
    router. *)

Record RouteModules := mkRouteModules {
  authRoutes : option string;
  plantRoutes : option string;
  deviceRoutes : option string;
  telemetryRoutes : option string;
  azureDeviceRoutes : option string;
  alarmRoutes : option string
}.

(** [require(path)]: the module, named by its path, or [None] for a throw. *)
Definition require (loads : string → bool) (path : string) : option string :=
  if loads path then Some path else None.

(** The [try] block of lines 194-212: the first [require] that throws ends
    it, and the inner [try] falls back to the mock telemetry routes. *)
Definition load_routes (loads : string → bool) : RouteModules :=
  match require loads "./routes/authRoutes" with
  | None => mkRouteModules None None None None None None
  | Some auth =>
  match require loads "./routes/plantRoutes" with
  | None => mkRouteModules (Some auth) None None None None None
  | Some plant =>
  match require loads "./routes/deviceRoutes" with
  | None => mkRouteModules (Some auth) (Some plant) None None None None
  | Some device =>
  match
    match require loads "./routes/telemetryRoutes" with
    | Some telemetry => Some telemetry
    | None => require loads "./routes/telemetryMock"
    end
  with
  | None => mkRouteModules (Some auth) (Some plant) (Some device) None None None
  | Some telemetry =>
  match require loads "./routes/azureDevice" with
  | None => mkRouteModules (Some auth) (Some plant) (Some device) (Some telemetry) None None
  | Some azure =>
      mkRouteModules (Some auth) (Some plant) (Some device) (Some telemetry) (Some azure)
        (require loads "./routes/alarmRoutes")
  end end end end end.

Inductive Mounted :=
  | module_router (path : string)
  | empty_router.

(** [routes || express.Router()] *)
Definition or_empty_router (routes : option string) : Mounted :=
  match routes with
  | Some path => module_router path
  | None => empty_router
  end.

(** What [app.use] has mounted when [initializeRoutes] returns, in the order
    of lines 215-220. *)
Definition initializeRoutes (loads : string → bool) : list (string * Mounted) :=
  let modules := load_routes loads in
  [ ("/api/auth", or_empty_router (authRoutes modules));
    ("/api/plants", or_empty_router (plantRoutes modules));
    ("/api/devices", or_empty_router (deviceRoutes modules));
    ("/api/telemetry", or_empty_router (telemetryRoutes modules));
    ("/api/azure", or_empty_router (azureDeviceRoutes modules));
    ("/api/alarms", or_empty_router (alarmRoutes modules)) ].

(** * The mock telemetry routes

    [Gas-monitoring-backend28/routes/telemetryMock.js], which [server.js]
    mounts when the telemetry routes proper cannot be loaded (line 205).  The
    router is the list of its routes in the order of their registration
    (lines 157-308).  A request is its method and the segments of its path
    below the mount point, cut at the slashes, one trailing slash dropped.
    Express hands a request to the first route whose method and path match
    and, the handlers here never calling [next], to no other; it compares
    the literal parts of a path without regard to case, and a parameter
    stands for one non-empty segment. *)

Module telemetryMock.

Inductive Method := GET | POST.

Inductive Segment :=
  | Literal (text : string)
  | Param (name : string).

(** The handlers, named by what they answer with. *)
Inductive Handler :=
  | latest_telemetry
  | realtime_telemetry
  | historical_telemetry
  | get_threshold
  | post_threshold
  | get_tolerance
  | post_tolerance
  | alarms_count
  | all_plants
  | plant_devices
  | device_restart.

Definition router : list (Method * list Segment * Handler) :=
  [ (GET, [Literal "latest"; Param "deviceId"], latest_telemetry);
    (GET, [Literal "realtime"; Param "deviceId"], realtime_telemetry);
    (GET, [Param "deviceId"], historical_telemetry);
    (GET, [Literal "threshold"; Param "deviceId"; Param "type"], get_threshold);
    (POST, [Literal "threshold"; Param "deviceId"; Param "type"], post_threshold);
    (GET, [Literal "tolerance"; Param "deviceId"; Param "type"], get_tolerance);
    (POST, [Literal "tolerance"; Param "deviceId"; Param "type"], post_tolerance);
    (GET, [Literal "alarms"; Literal "count"], alarms_count);
    (GET, [Literal "plants"], all_plants);
    (GET, [Literal "plant"; Param "plantId"; Literal "devices"], plant_devices);
    (POST, [Literal "device"; Param "deviceId"; Literal "restart"], device_restart) ].

Definition same_method (a b : Method) : bool :=
  match a, b with
  | GET, GET | POST, POST => true
  | _, _ => false
  end.

Definition lower (c : Ascii.ascii) : Ascii.ascii :=
  let n := Ascii.nat_of_ascii c in
  if (65 <=? n)%nat && (n <=? 90)%nat then Ascii.ascii_of_nat (n + 32) else c.

Fixpoint lowercase (s : string) : string :=
  match s with
  | EmptyString => EmptyString
  | String c s' => String (lower c) (lowercase s')
  end.

(** The parameters of the path when it matches the pattern. *)
Fixpoint match_path (pattern : list Segment) (path : list string)
    : option (list (string * string)) :=
  match pattern, path with
  | [], [] => Some []
  | Literal text :: pattern', s :: path' =>
      if String.eqb (lowercase s) (lowercase text) then match_path pattern' path' else None
  | Param name :: pattern', s :: path' =>
      match s with
      | EmptyString => None
      | _ => (λ params, (name, s) :: params) <$> match_path pattern' path'
      end
  | _, _ => None
  end.

Definition route_matches (method : Method) (path : list string)
    (route : Method * list Segment * Handler) : option (Handler * list (string * string)) :=
  if same_method route.1.1 method
  then (λ params, (route.2, params)) <$> match_path route.1.2 path else None.

(** The handler that answers a request, with the parameters it is given. *)
Definition dispatch (method : Method) (path : list string)
    : option (Handler * list (string * string)) :=
  head (omap (route_matches method path) router).

End telemetryMock.

(** * The telemetry service of the dashboard

    [unnamed/part_001], lines 1043-1277: the caches kept by the browser
    client of the relay, and its handler for a telemetry message.  A
    message is the JSON object of a frame, as on the server.  As for
    [clients.deviceSubscriptions], the caches are plain objects used as
    dictionaries and only their own keys are modelled. *)


Module TelemetryCache.
Record t := mk {
  historical : gmap string (list (gmap string string));
  realtime : gmap string (list (gmap string string));
  latest : gmap string (gmap string string)
}.
End TelemetryCache.

Module LastFetch.
Record t := mk {
  historical : gmap string Z;
  realtime : gmap string Z;
  latest : gmap string Z
}.
End LastFetch.



(** * The vocabulary of the properties *)

(** ** The invariants that the types of the source give for free

    A [Set] holds no member twice. *)
Definition wf (c : Clients) : Prop :=
  NoDup (consumers c) ∧ NoDup (producers c) ∧
  map_Forall (λ _ deviceClients, NoDup deviceClients) (deviceSubscriptions c).

#[local] Instance wf_dec c : Decision (wf c).
Proof. unfold wf. apply _. Defined.

(** ** Sending and receiving *)

(** The state after [m] has been written to the channel of [x]. *)
Definition deliver (m : gmap string string) (x : conn) (w : World) : World :=
  mkWorld (clients w) (update x (push_frame (Text m)) (heap w)) (stderr w).

(** [w'] has the registry, the log and the channel states of [w]. *)
Definition same_status (w w' : World) : Prop :=
  clients w' = clients w ∧ stderr w' = stderr w ∧
  ∀ x, readyState (heap w' x) = readyState (heap w x).

Definition opened (w : World) (x : conn) : bool :=
  bool_decide (readyState (heap w x) = 1%Z).




#[local] Instance Frame_eq_dec : EqDecision Frame.
Proof. solve_decision. Defined.

(** The message [m] has been written exactly once to [x] between [w] and
    [w']. *)
Definition delivered_once (m : gmap string string) (w w' : World) (x : conn) : Prop :=
  sent (heap w' x) = (sent (heap w x) ++ [Text m])%list.

#[local] Instance delivered_once_dec m w w' x : Decision (delivered_once m w w' x).
Proof. unfold delivered_once. apply _. Defined.

(** ** Relations between the state before and after a handler *)

(** Every state reached from [w] by the computation [m], thrown or not, is
    related to [w] by [R]. *)
Definition preserves {A} (R : relation World) (m : JS A) : Prop :=
  ∀ w, R w (m w).2.

(** Two states of a connection object that differ at most in [sent]. *)
Definition same_but_sent (s s' : Socket) : Prop :=
  readyState s' = readyState s ∧ isAlive s' = isAlive s ∧
  lastActivity s' = lastActivity s ∧ clientType s' = clientType s ∧
  terminated s' = terminated s.

(** [w'] has the registry of [w] and at most more frames sent. *)
Definition only_sent (w w' : World) : Prop :=
  clients w' = clients w ∧ ∀ x, same_but_sent (heap w x) (heap w' x).

(** Every connection object is as before, except for what was sent to it. *)
Definition same_sockets (w w' : World) : Prop :=
  ∀ x, same_but_sent (heap w x) (heap w' x).

(** A property of the registry that holds afterwards if it held before. *)
Definition keeps (I : Clients → Prop) : relation World :=
  λ w w', I (clients w) → I (clients w').

Definition clients_fixed : relation World := λ w w', clients w' = clients w.

(** Nothing has been sent and no activity timestamp has moved. *)
Definition quiet (w w' : World) : Prop :=
  ∀ x, lastActivity (heap w' x) = lastActivity (heap w x) ∧
       sent (heap w' x) = sent (heap w x).

(** The same, and [clients.consumers] has not changed. *)
Definition quiet_for_consumers (w w' : World) : Prop :=
  quiet w w' ∧ consumers (clients w') = consumers (clients w).

(** ** Properties and updates of the registry *)

Definition no_empty_set (c : Clients) : Prop :=
  ∀ d s, deviceSubscriptions c !! d = Some s → s ≠ [].

(** The registry once [ws] has left the consumers and every device set
    (lines 102-107 and 257-262). *)
Definition consumer_removed (ws : conn) (c : Clients) : Clients :=
  delete_from_all ws (set_consumers (Set_delete ws (consumers c)) c).

(** The registry after the connection handler has admitted [ws]. *)
Definition admitted (ws : conn) (clientTypeParam deviceId : option string) (c : Clients)
    : Clients :=
  if decide (default "consumer" (js_or clientTypeParam (Some "consumer")) = "producer")
  then set_producers (Set_add ws (producers c)) c
  else
    let c := set_consumers (Set_add ws (consumers c)) c in
    match deviceId with
    | Some d => if truthy deviceId then subscribed d ws c else c
    | None => c
    end.

(** Every member of every device set is a member of [clients.consumers]. *)
Definition subscribers_are_consumers (c : Clients) : Prop :=
  ∀ d s x, deviceSubscriptions c !! d = Some s → x ∈ s → x ∈ consumers c.

Definition roles_disjoint (c : Clients) : Prop :=
  ∀ x, x ∈ producers c → x ∉ consumers c.

Definition producer_deleted (x : conn) (c : Clients) : Clients :=
  set_producers (Set_delete x (producers c)) c.

(** The registry after the members of [l] that satisfy [P] have been
    removed by [del], in the order of [l]. *)
Definition reaped (del : conn → Clients → Clients) (P : conn → bool) (l : list conn)
    (c : Clients) : Clients :=
  foldl (λ c x, if P x then del x c else c) c l.

(** ** The sweep, seen from one connection *)

Definition idle (now : Z) (s : Socket) : bool :=
  bool_decide (now - lastActivity s > 120000)%Z.

(** What one visit of the sweep does to a connection object. *)
Definition swept (now : Z) (s : Socket) : Socket :=
  if idle now s then terminate_socket s
  else if decide (readyState s = 1%Z) then push_frame Ping s else s.

(** A callback of the sweep that visits [x], and updates the registry by
    [del x] when [x] is past the deadline. *)
Definition visits (now : Z) (del : conn → Clients → Clients) (body : conn → JS unit) : Prop :=
  ∀ x w, ∃ w2, body x w = (Normal (), w2) ∧
    clients w2 = (if idle now (heap w x) then del x (clients w) else clients w) ∧
    stderr w2 = stderr w ∧
    ∀ y, heap w2 y = update x (swept now) (heap w) y.

(** ** Runtimes and runs *)

Definition node_without_WebSocket : Runtime := mkRuntime None.
Definition node_with_WebSocket : Runtime := mkRuntime (Some 1%Z).

#[local] Instance referenced_dec ws c : Decision (referenced ws c).
Proof. unfold referenced. apply _. Defined.

#[local] Instance enabled_dec ev w : Decision (enabled ev w).
Proof. destruct ev; simpl; apply _. Defined.

Definition T0 : Date := mkDate 0 "1970-01-01T00:00:00.000Z".
Definition T30 : Date := mkDate 30000 "1970-01-01T00:00:30.000Z".
Definition T200 : Date := mkDate 200000 "1970-01-01T00:03:20.000Z".

Definition subscribe_frame (d : string) : RawFrame :=
  JsonText (JObject {[ "type" := "subscribe"; "deviceId" := d ]}).

(** A consumer without a device filter has connected at time 0. *)
Definition one_consumer (rt : Runtime) : World :=
  (handle rt T0 (Connection 1 None None) initial).2.

(** A producer has connected at time 0 and has sent a [subscribe] frame for
    the device d1. *)
Definition producer_subscribed (rt : Runtime) : World :=
  (handle rt T0 (Message 0 (subscribe_frame "d1"))
     (handle rt T0 (Connection 0 (Some "producer") None) initial).2).2.

(** The state after the events of [trace], oldest first. *)
Definition run (rt : Runtime) (trace : list (Date * Event)) (w : World) : World :=
  foldl (λ w tev, (handle rt tev.1 tev.2 w).2) w trace.

(** A producer, a consumer of d1, a consumer without filter and a consumer
    of d2 are connected. *)
Definition four_clients : World :=
  run node_with_WebSocket
    [(T0, Connection 0 (Some "producer") None);
     (T0, Connection 1 None (Some "d1"));
     (T0, Connection 2 None None);
     (T0, Connection 3 (Some "consumer") (Some "d2"))] initial.



Definition alarm_d1 : gmap string string :=
  {[ "type" := "alarm"; "device" := "d1"; "code" := "IO_ALR_100" ]}.

Definition T170 : Date := mkDate 170000 "1970-01-01T00:02:50.000Z".

(** The consumer of d1 has been silent since it connected; the others
    answered a ping after 170 s. *)
Definition d1_consumer_idle : World :=
  run node_with_WebSocket [(T170, Pong 0); (T170, Pong 2); (T170, Pong 3)] four_clients.

Definition subscribe_nothing : gmap string string := {[ "type" := "subscribe" ]}.

(** A producer and a consumer have connected at time 0; the producer has
    answered a ping after 170 s, the consumer has stayed silent. *)
Definition active_producer_idle_consumer (rt : Runtime) : World :=
  run rt [(T0, Connection 0 (Some "producer") None);
          (T0, Connection 1 None None);
          (T170, Pong 0)] initial.

(** ** The message handler, seen from the sender *)

(** The state once the handler has recorded the arrival of a frame that
    parses (line 64). *)
Definition touched (ws : conn) (now : Date) (w : World) : World :=
  mkWorld (clients w) (update ws (set_lastActivity (getTime now)) (heap w)) (stderr w).


Definition ping_frame : gmap string string := {[ "type" := "ping" ]}.

(** ** The dashboard's cache along a run *)







(** ** The route modules *)

(** The route modules in the order in which [initializeRoutes] requires
    them, the two candidates for the telemetry routes together. *)
Definition required_in_order : list (string * list string) :=
  [ ("/api/auth", ["./routes/authRoutes"]);
    ("/api/plants", ["./routes/plantRoutes"]);
    ("/api/devices", ["./routes/deviceRoutes"]);
    ("/api/telemetry", ["./routes/telemetryRoutes"; "./routes/telemetryMock"]);
    ("/api/azure", ["./routes/azureDevice"]);
    ("/api/alarms", ["./routes/alarmRoutes"]) ].

(** The first of the candidates that loads. *)
Fixpoint first_loading (loads : string → bool) (candidates : list string) : option string :=
  match candidates with
  | [] => None
  | path :: candidates' => if loads path then Some path else first_loading loads candidates'
  end.

(** * Properties *)

(** ** Sending to a list of recipients *)

Lemma same_status_refl w : same_status w w.
Proof. by repeat split. Qed.

Lemma same_status_deliver w0 w m x : same_status w0 w → same_status w0 (deliver m x w).
Proof.
  intros (Hc & He & Hr). repeat split; simpl; try done.
  intros y. unfold update. case_decide; subst; simpl; apply Hr.
Qed.

Lemma ws_send_open ws m w :
  readyState (heap w ws) = 1%Z → ws_send ws m w = (Normal (), deliver m ws w).
Proof.
  intros H. unfold ws_send, bind, get_socket. rewrite H.
  by rewrite decide_False, decide_True.
Qed.

(** The effect on the heap of visiting one more member [a] before the
    members [l], when the loop writes [f] to the members that satisfy [P]. *)
Lemma fan_cons_hit (f : Frame) (P : conn → bool) a l (h h' : conn → Socket) :
  a ∉ l → P a →
  (∀ x, h' x = if decide (x ∈ l ∧ P x)
               then push_frame f (update a (push_frame f) h x)
               else update a (push_frame f) h x) →
  ∀ x, h' x = if decide (x ∈ a :: l ∧ P x) then push_frame f (h x) else h x.
Proof.
  intros Ha HPa Hh x. rewrite Hh. unfold update.
  destruct (decide (x = a)) as [->|Hne].
  - rewrite decide_False by (by intros [? _]).
    rewrite decide_True; [done|]. split; [left|done].
  - destruct (decide (x ∈ l ∧ P x)) as [[Hin HP]|Hn].
    + rewrite decide_True; [done|]. split; [by right|done].
    + rewrite decide_False; [done|]. intros [Hin HP]. apply Hn.
      by apply elem_of_cons in Hin as [?|?].
Qed.

Lemma fan_cons_miss (f : Frame) (P : conn → bool) a l (h h' : conn → Socket) :
  ¬ P a →
  (∀ x, h' x = if decide (x ∈ l ∧ P x) then push_frame f (h x) else h x) →
  ∀ x, h' x = if decide (x ∈ a :: l ∧ P x) then push_frame f (h x) else h x.
Proof.
  intros HPa Hh x. rewrite Hh.
  destruct (decide (x ∈ l ∧ P x)) as [[Hin HP]|Hn].
  - rewrite decide_True; [done|]. split; [by right|done].
  - rewrite decide_False; [done|]. intros [Hin HP]. apply Hn.
    by apply elem_of_cons in Hin as [->|?].
Qed.


Lemma fan_out m (P : conn → bool) body w0 :
  (∀ x w, same_status w0 w →
     body x w = if P x then (Normal (), deliver m x w) else (Normal (), w)) →
  ∀ l w, same_status w0 w → NoDup l →
    ∃ w', forEach l body w = (Normal (), w') ∧
          same_status w0 w' ∧
          ∀ x, heap w' x = if decide (x ∈ l ∧ P x)
                           then push_frame (Text m) (heap w x) else heap w x.
Proof.
  intros Hbody. induction l as [|a l IH]; intros w Hw Hnd.
  - exists w. by split_and!.
  - apply NoDup_cons in Hnd as [Ha Hnd]. simpl. unfold bind.
    rewrite (Hbody a w Hw).
    destruct (P a) eqn:HPa.
    + destruct (IH (deliver m a w) (same_status_deliver _ _ _ _ Hw) Hnd)
        as (w' & Hrun & Hst & Hheap).
      exists w'. split_and!; [done|done|]. apply fan_cons_hit; [done|by rewrite HPa|done].
    + destruct (IH w Hw Hnd) as (w' & Hrun & Hst & Hheap).
      exists w'. split_and!; [done|done|]. apply fan_cons_miss; [rewrite HPa; by intros []|done].
Qed.

(** ** The recipients of a telemetry event *)











(** C6.  An alarm event is written exactly once to every open consumer
    connection, whatever the device sets hold: replacing
    [deviceSubscriptions] by any other index changes nothing in what is
    sent. *)
Theorem broadcastAlarm_reaches_every_open_consumer data now w :
  NoDup (consumers (clients w)) →
  ∃ w', broadcastAlarm data now w = (Normal (), w') ∧
    let m := alarm_message data now in
    (∀ c, c ∈ consumers (clients w) → readyState (heap w c) = 1%Z →
       delivered_once m w w' c) ∧
    (∀ subs, ∃ w'',
       broadcastAlarm data now
         (mkWorld (set_deviceSubscriptions subs (clients w)) (heap w) (stderr w))
       = (Normal (), w'') ∧ ∀ x, heap w'' x = heap w' x).
Proof.
  intros Hnd. set (m := alarm_message data now).
  set (body := λ client : nat,
    let* s := get_socket client in
    if decide (readyState s = 1%Z) then ws_send client m else ret ()).
  assert (Hb : ∀ w0 x w1, same_status w0 w1 →
    body x w1 = if opened w0 x then (Normal (), deliver m x w1) else (Normal (), w1)).
  { intros w0 x w1 (_ & _ & Hr). unfold body, bind, get_socket, opened.
    rewrite <- (Hr x). case_decide as Ho.
    - rewrite bool_decide_eq_true_2 by done. by rewrite (ws_send_open _ _ _ Ho).
    - by rewrite bool_decide_eq_false_2. }
  destruct (fan_out m (opened w) body w (Hb w) (consumers (clients w)) w
              (same_status_refl w) Hnd) as (w' & Hrun & _ & Hheap).
  exists w'. split; [exact Hrun|]. simpl. split.
  - intros c Hc Ho. unfold delivered_once. rewrite Hheap, decide_True; [done|].
    split; [done|by apply bool_decide_pack].
  - intros subs.
    set (v := mkWorld (set_deviceSubscriptions subs (clients w)) (heap w) (stderr w)).
    destruct (fan_out m (opened v) body v (Hb v) (consumers (clients v)) v
                (same_status_refl v) Hnd) as (w'' & Hrun' & _ & Hheap').
    exists w''. split; [exact Hrun'|]. intros x. by rewrite Hheap', Hheap.
Qed.

(** ** What a handler leaves alone *)

Section preserves.
Context (R : relation World) `{!PreOrder R}.

Lemma preserves_ret {A} (a : A) : preserves R (ret a).
Proof. intros w. simpl. reflexivity. Qed.

Lemma preserves_throw {A} e : preserves R (@throw A e).
Proof. intros w. simpl. reflexivity. Qed.

Lemma preserves_bind {A B} (m : JS A) (k : A → JS B) :
  preserves R m → (∀ a, preserves R (k a)) → preserves R (bind m k).
Proof.
  intros Hm Hk w. unfold bind. specialize (Hm w).
  destruct (m w) as [[a|e] w1]; simpl in *; [|done].
  etrans; [exact Hm|apply Hk].
Qed.

Lemma preserves_try_catch {A} (body : JS A) handler :
  preserves R body → (∀ e, preserves R (handler e)) →
  preserves R (try_catch body handler).
Proof.
  intros Hm Hk w. unfold try_catch. specialize (Hm w).
  destruct (body w) as [[a|e] w1]; simpl in *; [done|].
  etrans; [exact Hm|apply Hk].
Qed.

Lemma preserves_forEach l body :
  (∀ x, preserves R (body x)) → preserves R (forEach l body).
Proof.
  intros Hb. induction l as [|a l IH]; simpl.
  - apply preserves_ret.
  - apply preserves_bind; [apply Hb|done].
Qed.

Lemma preserves_forEach_counting l body n :
  (∀ x n, preserves R (body x n)) → preserves R (forEach_counting l body n).
Proof.
  intros Hb. revert n. induction l as [|a l IH]; intros n; simpl.
  - apply preserves_ret.
  - apply preserves_bind; [apply Hb|done].
Qed.

Lemma preserves_get_clients : preserves R get_clients.
Proof. intros w. simpl. reflexivity. Qed.

Lemma preserves_get_socket ws : preserves R (get_socket ws).
Proof. intros w. simpl. reflexivity. Qed.
End preserves.

#[local] Instance only_sent_preorder : PreOrder only_sent.
Proof.
  split.
  - intros w. by split.
  - intros w1 w2 w3 [Hc1 Hh1] [Hc2 Hh2]. split; [congruence|].
    intros x. destruct (Hh1 x) as (?&?&?&?&?), (Hh2 x) as (?&?&?&?&?).
    unfold same_but_sent. split_and!; congruence.
Qed.

Lemma only_sent_ws_send ws m : preserves only_sent (ws_send ws m).
Proof.
  intros w. unfold ws_send, bind, get_socket.
  repeat case_decide; simpl; try reflexivity.
  split; [done|]. intros x. simpl. unfold update. by case_decide; subst.
Qed.

Lemma only_sent_broadcastTelemetry data now :
  preserves only_sent (broadcastTelemetry data now).
Proof.
  unfold broadcastTelemetry.
  apply preserves_bind; [apply _|apply preserves_get_clients, _|intros c].
  apply preserves_bind; [apply _| |intros n].
  - destruct (telemetry_deviceId data); [|apply preserves_ret, _].
    destruct (truthy _); [|apply preserves_ret, _].
    destruct (deviceSubscriptions c !! _); [|apply preserves_ret, _].
    apply preserves_forEach_counting; [apply _|]. intros x k.
    apply preserves_bind; [apply _|apply preserves_get_socket, _|intros s'].
    case_decide; [|apply preserves_ret, _].
    apply preserves_bind; [apply _|apply only_sent_ws_send|intros; apply preserves_ret, _].
  - apply preserves_bind; [apply _|apply preserves_get_clients, _|intros c'].
    apply preserves_forEach_counting; [apply _|]. intros x k.
    apply preserves_bind; [apply _|apply preserves_get_clients, _|intros c''].
    apply preserves_bind; [apply _|apply preserves_get_socket, _|intros s'].
    destruct (_ && _); [|apply preserves_ret, _].
    apply preserves_bind; [apply _|apply only_sent_ws_send|intros; apply preserves_ret, _].
Qed.

Lemma only_sent_broadcastAlarm data now :
  preserves only_sent (broadcastAlarm data now).
Proof.
  unfold broadcastAlarm.
  apply preserves_bind; [apply _|apply preserves_get_clients, _|intros c].
  apply preserves_forEach; [apply _|]. intros x.
  apply preserves_bind; [apply _|apply preserves_get_socket, _|intros s'].
  case_decide; [apply only_sent_ws_send|apply preserves_ret, _].
Qed.

(** The message handler catches whatever its body throws. *)
Lemma on_message_returns ws message now w :
  ∃ w', on_message ws message now w = (Normal (), w').
Proof.
  unfold on_message, try_catch.
  match goal with |- context [match ?b w with _ => _ end] => destruct (b w) as [[[]|e] w1] end;
    eauto.
Qed.

#[local] Instance same_sockets_preorder : PreOrder same_sockets.
Proof.
  split.
  - intros w x. by repeat split.
  - intros w1 w2 w3 Hh1 Hh2 x.
    destruct (Hh1 x) as (?&?&?&?&?), (Hh2 x) as (?&?&?&?&?).
    unfold same_but_sent. split_and!; congruence.
Qed.

Lemma preserves_weaken {A} (R R' : relation World) (m : JS A) :
  (∀ w w', R w w' → R' w w') → preserves R m → preserves R' m.
Proof. intros HR Hm w. apply HR, Hm. Qed.

Lemma only_sent_same_sockets w w' : only_sent w w' → same_sockets w w'.
Proof. by intros [_ ?]. Qed.

Lemma same_sockets_modify_clients f : preserves same_sockets (modify_clients f).
Proof. intros w x. by repeat split. Qed.

Lemma on_message_unfold ws message now :
  on_message ws message now =
  try_catch
    (let* data := JSON_parse message in
     modify_socket ws (set_lastActivity (getTime now)) ;;;
     dispatch ws data now)
    (λ error, console_error "Error parsing message:" error).
Proof. reflexivity. Qed.

Lemma same_sockets_get_prop data key : preserves same_sockets (get_prop data key).
Proof. destruct data; [apply preserves_throw, _|apply preserves_ret, _..]. Qed.

Lemma same_sockets_dispatch ws data now : preserves same_sockets (dispatch ws data now).
Proof.
  pose proof (λ A (m : JS A), preserves_weaken _ _ m only_sent_same_sockets) as Hweak.
  unfold dispatch.
  apply preserves_bind; [apply _|apply same_sockets_get_prop|intros type].
  repeat case_decide.
  - apply preserves_bind; [apply _| |intros; apply preserves_ret, _].
    apply Hweak, only_sent_broadcastTelemetry.
  - apply Hweak, only_sent_broadcastAlarm.
  - apply Hweak, only_sent_ws_send.
  - apply preserves_bind; [apply _|apply same_sockets_get_prop|intros [d|]];
      [|apply preserves_ret, _].
    destruct (truthy _); [|apply preserves_ret, _].
    apply preserves_bind; [apply _|apply same_sockets_modify_clients|intros _].
    apply Hweak, only_sent_ws_send.
  - apply preserves_ret, _.
Qed.

(** C5.  A frame that does not parse is logged and dropped: the handler
    returns normally, the registry with its device sets and every connection
    object (so its [readyState], [lastActivity] and [terminated]) are what
    they were, and the only effect is one line on [stderr]. *)
Theorem malformed_frame_is_logged_and_dropped ws text now w :
  ∃ w', on_message ws (Unparseable text) now w = (Normal (), w') ∧
    clients w' = clients w ∧
    heap w' = heap w ∧
    stderr w' = (stderr w ++ [("Error parsing message:", SyntaxError)])%list.
Proof.
  rewrite on_message_unfold. unfold try_catch, bind, JSON_parse, throw.
  eexists. split; [reflexivity|]. by split_and!.
Qed.

(** C10.  A [subscribe] frame without a (non-empty) [deviceId] changes
    nothing but the sender's activity timestamp: no device set is created or
    changed, nothing is sent, nothing is logged, the handler returns
    normally and the connection keeps its [readyState].  And every frame that
    parses, whatever its type, leaves the sender's [lastActivity] at the
    time of its arrival. *)
Theorem subscribe_without_deviceId_only_touches_activity ws now w :
  (∀ o, o !! "type" = Some "subscribe" → truthy (o !! "deviceId") = false →
     on_message ws (JsonText (JObject o)) now w =
     (Normal (),
      mkWorld (clients w) (update ws (set_lastActivity (getTime now)) (heap w)) (stderr w))) ∧
  (∀ data, ∃ w', on_message ws (JsonText data) now w = (Normal (), w') ∧
     lastActivity (heap w' ws) = getTime now).
Proof.
  split.
  - intros o Hty Hdev. rewrite on_message_unfold.
    unfold try_catch, bind, JSON_parse, ret, modify_socket, dispatch, bind, get_prop, ret.
    rewrite Hty. rewrite !decide_False by done. rewrite decide_True by done.
    destruct (o !! "deviceId") as [d|]; [|done]. by rewrite Hdev.
  - intros data. destruct (on_message_returns ws (JsonText data) now w) as [w' Hrun].
    exists w'. split; [done|].
    assert (Hw' : w' = (on_message ws (JsonText data) now w).2) by by rewrite Hrun.
    rewrite on_message_unfold in Hw'. unfold try_catch, bind in Hw'. simpl in Hw'.
    set (w1 := mkWorld (clients w) (update ws (set_lastActivity (getTime now)) (heap w))
                       (stderr w)) in *.
    pose proof (same_sockets_dispatch ws data now w1) as Hd.
    assert (H1 : lastActivity (heap w1 ws) = getTime now).
    { simpl. unfold update. by rewrite decide_True. }
    destruct (dispatch ws data now w1) as [[[]|e] w2]; simpl in *; subst w'.
    + destruct (Hd ws) as (_ & _ & -> & _). done.
    + simpl. destruct (Hd ws) as (_ & _ & -> & _). done.
Qed.

Lemma elem_of_Set_add x y s : x ∈ Set_add y s ↔ x = y ∨ x ∈ s.
Proof.
  unfold Set_add. case_decide as Hy.
  - split; [by right|]. by intros [->|?].
  - rewrite elem_of_app, list_elem_of_singleton. tauto.
Qed.

Lemma elem_of_Set_delete x y s : x ∈ Set_delete y s ↔ x ≠ y ∧ x ∈ s.
Proof. unfold Set_delete. by rewrite list_elem_of_filter. Qed.

Lemma subscribed_lookup d ws c :
  deviceSubscriptions (subscribed d ws c) !! d
  = Some (Set_add ws (default [] (deviceSubscriptions c !! d))).
Proof.
  unfold subscribed. simpl. rewrite lookup_alter_eq. case_decide as E.
  - by rewrite lookup_insert_eq, E.
  - destruct (deviceSubscriptions c !! d); done.
Qed.

Lemma subscribed_lookup_ne d d' ws c :
  d' ≠ d →
  deviceSubscriptions (subscribed d ws c) !! d' = deviceSubscriptions c !! d'.
Proof.
  intros Hne. unfold subscribed. simpl. rewrite lookup_alter_ne by done.
  case_decide; [by rewrite lookup_insert_ne|done].
Qed.

(** A [subscribe] frame with a device identifier, from an open sender. *)
Lemma on_message_subscribe ws o d now w :
  o !! "type" = Some "subscribe" → o !! "deviceId" = Some d → d ≠ EmptyString →
  readyState (heap w ws) = 1%Z →
  on_message ws (JsonText (JObject o)) now w =
  (Normal (),
   deliver (subscription_confirmed d now) ws
     (mkWorld (subscribed d ws (clients w))
        (update ws (set_lastActivity (getTime now)) (heap w)) (stderr w))).
Proof.
  intros Hty Hd Hne Ho. rewrite on_message_unfold.
  unfold try_catch, bind, JSON_parse, ret, modify_socket, dispatch, bind, get_prop, ret.
  rewrite Hty. rewrite !decide_False by done. rewrite decide_True by done.
  rewrite Hd. simpl. rewrite bool_decide_eq_true_2 by done.
  unfold subscribe_device, modify_clients. simpl.
  rewrite ws_send_open; [done|]. simpl. unfold update. by rewrite decide_True.
Qed.

Lemma bind_ret {A B} (a : A) (k : A → JS B) w : bind (ret a) k w = k a w.
Proof. reflexivity. Qed.

(** The same frame from any sender: the subscription is recorded whatever
    the state of the sender's channel. *)
Lemma on_message_subscribe_clients ws o d now w :
  o !! "type" = Some "subscribe" → o !! "deviceId" = Some d → d ≠ EmptyString →
  clients (on_message ws (JsonText (JObject o)) now w).2 = subscribed d ws (clients w).
Proof.
  intros Hty Hd Hne. rewrite on_message_unfold.
  unfold try_catch, bind at 1. cbn [JSON_parse ret]. unfold bind at 1.
  cbn [modify_socket]. set (w1 := mkWorld _ _ _).
  assert (Hc : clients (dispatch ws (JObject o) now w1).2 = subscribed d ws (clients w)).
  { unfold dispatch. cbn [get_prop]. rewrite bind_ret, Hty.
    rewrite !decide_False by done. rewrite decide_True by done.
    rewrite bind_ret, Hd. cbn [truthy]. rewrite bool_decide_eq_true_2 by done.
    unfold bind at 1. cbn [subscribe_device modify_clients].
    apply (proj1 (only_sent_ws_send _ _ (mkWorld _ _ _))). }
  by destruct (dispatch ws (JObject o) now w1) as [[[]|e] w2].
Qed.


(** ** Empty device sets *)

Lemma cleanup_empty_no_empty_set c : no_empty_set (cleanup_empty c).
Proof.
  intros d s [_ Hlen]%map_lookup_filter_Some ->. by simpl in Hlen.
Qed.

Lemma cleanup_empty_lookup c d s :
  deviceSubscriptions (cleanup_empty c) !! d = Some s →
  deviceSubscriptions c !! d = Some s.
Proof. by intros [? _]%map_lookup_filter_Some. Qed.

Lemma delete_from_all_lookup ws c d s :
  deviceSubscriptions (delete_from_all ws c) !! d = Some s →
  ∃ s0, deviceSubscriptions c !! d = Some s0 ∧ s = Set_delete ws s0.
Proof.
  unfold delete_from_all. simpl. rewrite lookup_fmap.
  destruct (deviceSubscriptions c !! d) as [s0|]; [|done].
  intros [= <-]. by exists s0.
Qed.

Lemma bind_Normal_inv {A B} (m : JS A) (k : A → JS B) w b w' :
  bind m k w = (Normal b, w') →
  ∃ a w1, m w = (Normal a, w1) ∧ k a w1 = (Normal b, w').
Proof.
  unfold bind. destruct (m w) as [[a|e] w1]; [|done]. by exists a, w1.
Qed.

Lemma heartbeat_no_empty_set rt now w w' :
  heartbeat rt now w = (Normal (), w') → no_empty_set (clients w').
Proof.
  intros Hrun. unfold heartbeat in Hrun.
  apply bind_Normal_inv in Hrun as (c1 & w1 & _ & Hrun).
  apply bind_Normal_inv in Hrun as (? & w2 & _ & Hrun).
  apply bind_Normal_inv in Hrun as (c3 & w3 & _ & Hrun).
  apply bind_Normal_inv in Hrun as (? & w4 & _ & Hrun).
  injection Hrun as <-. apply cleanup_empty_no_empty_set.
Qed.

Lemma no_empty_set_subscribed d ws c : no_empty_set c → no_empty_set (subscribed d ws c).
Proof.
  intros Hc d' s Hs. destruct (decide (d' = d)) as [->|Hne].
  - rewrite subscribed_lookup in Hs. injection Hs as <-. intros Hnil.
    assert (ws ∈ Set_add ws (default [] (deviceSubscriptions c !! d))) as Hin
      by (apply elem_of_Set_add; by left).
    rewrite Hnil in Hin. by apply elem_of_nil in Hin.
  - rewrite subscribed_lookup_ne in Hs by done. by apply (Hc d' s).
Qed.

(** C7.  When the close handler has run for a connection, no device is left
    with an empty set, and no set that is left holds the connection; and
    when a sweep has completed, no device is left with an empty set. *)
Theorem no_empty_set_after_close_and_sweep :
  (∀ ws w, ∃ w', on_close ws w = (Normal (), w') ∧
     no_empty_set (clients w') ∧
     ∀ d s, deviceSubscriptions (clients w') !! d = Some s → ws ∉ s) ∧
  (∀ rt now w w', heartbeat rt now w = (Normal (), w') → no_empty_set (clients w')).
Proof.
  split.
  - intros ws w. eexists. split; [reflexivity|]. cbn [clients]. split.
    + apply cleanup_empty_no_empty_set.
    + intros d s (s0 & _ & ->)%cleanup_empty_lookup%delete_from_all_lookup.
      rewrite elem_of_Set_delete. by intros [? _].
  - apply heartbeat_no_empty_set.
Qed.

(** ** Invariants of the registry along every run *)

#[local] Instance keeps_preorder I : PreOrder (keeps I).
Proof. split; unfold keeps; [by intros w|intros w1 w2 w3 H1 H2 ?; auto]. Qed.

#[local] Instance clients_fixed_preorder : PreOrder clients_fixed.
Proof. split; unfold clients_fixed; [done|intros w1 w2 w3; congruence]. Qed.

Ltac preserves_step :=
  first
    [ apply preserves_ret, _
    | apply preserves_throw, _
    | apply preserves_get_clients, _
    | apply preserves_get_socket, _
    | apply preserves_bind; [apply _| |intros ?]
    | apply preserves_try_catch; [apply _| |intros ?]
    | apply preserves_forEach; [apply _|intros ?]
    | apply preserves_forEach_counting; [apply _|intros ? ?] ].

Lemma clients_fixed_modify_socket ws f : preserves clients_fixed (modify_socket ws f).
Proof. by intros w. Qed.

Lemma clients_fixed_ws_send ws m : preserves clients_fixed (ws_send ws m).
Proof.
  unfold ws_send. repeat preserves_step.
  repeat case_decide; try preserves_step. apply clients_fixed_modify_socket.
Qed.

Lemma clients_fixed_ws_ping ws : preserves clients_fixed (ws_ping ws).
Proof.
  unfold ws_ping. repeat preserves_step.
  repeat case_decide; try preserves_step. apply clients_fixed_modify_socket.
Qed.

Lemma clients_fixed_keeps I w w' : clients_fixed w w' → keeps I w w'.
Proof. unfold clients_fixed, keeps. by intros ->. Qed.

Lemma only_sent_clients_fixed w w' : only_sent w w' → clients_fixed w w'.
Proof. by intros [? _]. Qed.

Lemma keeps_modify_clients (I : Clients → Prop) f :
  (∀ c, I c → I (f c)) → preserves (keeps I) (modify_clients f).
Proof. intros Hf w Hw. by apply Hf. Qed.

(** The pong handler, the close handler and the sweep keep an invariant of
    the registry as soon as the updates they are made of keep it. *)
Section keeps.
Context (I : Clients → Prop).
Context (I_delete_producer : ∀ ws c, I c → I (set_producers (Set_delete ws (producers c)) c)).
Context (I_consumer_removed : ∀ ws c, I c → I (consumer_removed ws c)).
Context (I_cleanup : ∀ c, I c → I (cleanup_empty c)).

Lemma keeps_fixed {A} (m : JS A) : preserves clients_fixed m → preserves (keeps I) m.
Proof. apply preserves_weaken, clients_fixed_keeps. Qed.

Lemma keeps_on_pong ws now : preserves (keeps I) (on_pong ws now).
Proof. unfold on_pong. repeat preserves_step; apply keeps_fixed, clients_fixed_modify_socket. Qed.

Lemma keeps_on_close ws : preserves (keeps I) (on_close ws).
Proof.
  intros w Hw.
  change (I (cleanup_empty (consumer_removed ws
            (set_producers (Set_delete ws (producers (clients w))) (clients w))))).
  apply I_cleanup, I_consumer_removed, I_delete_producer, Hw.
Qed.

Lemma keeps_check_producer rt now x : preserves (keeps I) (check_producer rt now x).
Proof.
  unfold check_producer. repeat preserves_step. case_decide.
  - repeat preserves_step.
    + apply keeps_fixed, clients_fixed_modify_socket.
    + apply keeps_modify_clients; auto.
  - unfold read_WebSocket_OPEN. destruct (WebSocket_OPEN rt); repeat preserves_step.
    case_decide; [apply keeps_fixed, clients_fixed_ws_ping|preserves_step].
Qed.

Lemma keeps_check_consumer rt now x : preserves (keeps I) (check_consumer rt now x).
Proof.
  unfold check_consumer. repeat preserves_step. case_decide.
  - intros w Hw. change (I (consumer_removed x (clients w))).
    apply I_consumer_removed, Hw.
  - unfold read_WebSocket_OPEN. destruct (WebSocket_OPEN rt); repeat preserves_step.
    case_decide; [apply keeps_fixed, clients_fixed_ws_ping|preserves_step].
Qed.

Lemma keeps_heartbeat rt now : preserves (keeps I) (heartbeat rt now).
Proof.
  unfold heartbeat.
  apply preserves_bind; [apply _|preserves_step|intros c].
  apply preserves_bind; [apply _| |intros _].
  { apply preserves_forEach; [apply _|]. apply keeps_check_producer. }
  apply preserves_bind; [apply _|preserves_step|intros c'].
  apply preserves_bind; [apply _| |intros _].
  { apply preserves_forEach; [apply _|]. apply keeps_check_consumer. }
  apply keeps_modify_clients; auto.
Qed.
End keeps.

Lemma snd_bind_fixed {A B} (m : JS A) (k : A → JS B) w :
  (∀ a, preserves clients_fixed (k a)) →
  clients (bind m k w).2 = clients (m w).2.
Proof.
  intros Hk. unfold bind. destruct (m w) as [[a|e] w1]; [|done]. apply Hk.
Qed.

Lemma on_connection_clients ws clientTypeParam deviceId now w :
  clients (on_connection ws clientTypeParam deviceId now w).2
  = admitted ws clientTypeParam deviceId (clients w).
Proof.
  unfold on_connection, admitted.
  unfold bind at 1. cbn [modify_socket]. unfold bind at 1. cbn [modify_socket].
  unfold bind at 1. cbn [modify_socket].
  rewrite snd_bind_fixed by (intros; apply clients_fixed_ws_send).
  case_decide; [done|].
  destruct deviceId as [d|]; [|done]. by destruct (truthy (Some d)).
Qed.

(** The message handler changes the registry only when it subscribes the
    sender to a device. *)
Lemma on_message_clients ws message now w :
  clients (on_message ws message now w).2 = clients w ∨
  ∃ d, d ≠ EmptyString ∧ clients (on_message ws message now w).2 = subscribed d ws (clients w).
Proof.
  rewrite on_message_unfold. unfold try_catch, bind.
  destruct message as [text|data]; [by left|]. cbn [JSON_parse ret modify_socket].
  set (w1 := mkWorld _ _ _).
  assert (Hd : clients (dispatch ws data now w1).2 = clients w ∨
          ∃ d, d ≠ EmptyString ∧ clients (dispatch ws data now w1).2 = subscribed d ws (clients w)).
  { destruct data as [| |o].
    - by left.
    - by left.
    - change (dispatch ws (JObject o) now w1) with
        ((if decide (o !! "type" = Some "telemetry") then
            broadcastTelemetry o now ;;; ret ()
          else if decide (o !! "type" = Some "alarm") then broadcastAlarm o now
          else if decide (o !! "type" = Some "ping") then ws_send ws (pong_message now)
          else if decide (o !! "type" = Some "subscribe") then
            match o !! "deviceId" with
            | Some d =>
                if truthy (o !! "deviceId") then
                  subscribe_device d ws ;;; ws_send ws (subscription_confirmed d now)
                else ret ()
            | None => ret ()
            end
          else ret ()) w1).
      repeat case_decide.
      + left. rewrite snd_bind_fixed by (intros; apply preserves_ret, _).
        apply (only_sent_broadcastTelemetry _ _ w1).
      + left. apply (only_sent_broadcastAlarm _ _ w1).
      + left. apply (clients_fixed_ws_send _ _ w1).
      + destruct (o !! "deviceId") as [d|] eqn:Ed; [|by left].
        destruct (truthy (Some d)) eqn:Et; [|by left].
        right. exists d. split; [by apply bool_decide_eq_true in Et|].
        unfold bind at 1. cbn [subscribe_device modify_clients].
        apply (clients_fixed_ws_send _ _ (mkWorld _ _ _)).
      + by left. }
  destruct (dispatch ws data now w1) as [[[]|e] w2]; exact Hd.
Qed.

Lemma NoDup_Set_add ws s : NoDup s → NoDup (Set_add ws s).
Proof.
  intros Hs. unfold Set_add. case_decide as Hin; [done|].
  apply NoDup_app. split_and!; [done| |apply NoDup_singleton].
  intros x Hx ->%list_elem_of_singleton. done.
Qed.

Lemma NoDup_Set_delete ws s : NoDup s → NoDup (Set_delete ws s).
Proof. apply NoDup_filter. Qed.

Lemma wf_delete_producer ws c : wf c → wf (set_producers (Set_delete ws (producers c)) c).
Proof. intros (?&?&?). split_and!; [done|by apply NoDup_Set_delete|done]. Qed.

Lemma wf_consumer_removed ws c : wf c → wf (consumer_removed ws c).
Proof.
  intros (Hc & Hp & Hm). split_and!; [by apply NoDup_Set_delete|done|].
  intros d s (s0 & Hs0 & ->)%delete_from_all_lookup.
  apply NoDup_Set_delete, (Hm d s0 Hs0).
Qed.

Lemma wf_cleanup_empty c : wf c → wf (cleanup_empty c).
Proof.
  intros (Hc & Hp & Hm). split_and!; [done|done|].
  intros d s Hs%cleanup_empty_lookup. by apply (Hm d s).
Qed.

Lemma wf_subscribed d ws c : wf c → wf (subscribed d ws c).
Proof.
  intros (Hc & Hp & Hm). split_and!; [done|done|].
  intros d' s Hs. destruct (decide (d' = d)) as [->|Hne].
  - rewrite subscribed_lookup in Hs. injection Hs as <-. apply NoDup_Set_add.
    destruct (deviceSubscriptions c !! d) as [s0|] eqn:E; [by apply (Hm d s0)|constructor].
  - rewrite subscribed_lookup_ne in Hs by done. by apply (Hm d' s).
Qed.

Lemma wf_admitted ws clientTypeParam deviceId c :
  wf c → wf (admitted ws clientTypeParam deviceId c).
Proof.
  intros Hwf. unfold admitted. case_decide.
  - destruct Hwf as (?&?&?). split_and!; [done|by apply NoDup_Set_add|done].
  - assert (wf (set_consumers (Set_add ws (consumers c)) c)) as Hwf'.
    { destruct Hwf as (?&?&?). split_and!; [by apply NoDup_Set_add|done|done]. }
    destruct deviceId as [d|]; [|done]. destruct (truthy _); [|done].
    by apply wf_subscribed.
Qed.

(** An invariant of the registry that the removals keep, that admission
    keeps for the connection being admitted, and that a subscription keeps
    for the sender of the frame, holds after the event, thrown or not. *)
Lemma handle_keeps (I : Clients → Prop) rt now ev w :
  (∀ ws c, I c → I (set_producers (Set_delete ws (producers c)) c)) →
  (∀ ws c, I c → I (consumer_removed ws c)) →
  (∀ c, I c → I (cleanup_empty c)) →
  (∀ ws ct dev, ev = Connection ws ct dev → I (admitted ws ct dev (clients w))) →
  (∀ ws message d, ev = Message ws message → d ≠ EmptyString →
     I (subscribed d ws (clients w))) →
  I (clients w) → I (clients (handle rt now ev w).2).
Proof.
  intros Hdp Hcr Hce Hadm Hsub Hw.
  destruct ev as [ws ct dev|ws msg|ws|ws| | | |ws]; cbn [handle].
  - unfold bind at 1. cbn [modify_socket]. rewrite on_connection_clients.
    by apply Hadm.
  - destruct (on_message_clients ws msg now w) as [->|(d & Hd & ->)];
      [done|by apply (Hsub ws msg)].
  - by apply (keeps_on_pong I ws now w).
  - unfold bind at 1. cbn [modify_socket].
    by apply (keeps_on_close I Hdp Hcr Hce ws (mkWorld _ _ _)).
  - by apply (keeps_heartbeat I Hdp Hcr Hce rt now w).
  - rewrite snd_bind_fixed by (intros; apply preserves_ret, _).
    by rewrite (proj1 (only_sent_broadcastTelemetry _ _ w)).
  - by rewrite (proj1 (only_sent_broadcastAlarm _ _ w)).
  - done.
Qed.

(** Whatever an event does, the Sets of the registry hold no member twice
    afterwards. *)
Lemma wf_handle rt now ev w : wf (clients w) → wf (clients (handle rt now ev w).2).
Proof.
  intros Hwf. apply handle_keeps; try done.
  - apply wf_delete_producer.
  - apply wf_consumer_removed.
  - apply wf_cleanup_empty.
  - intros. by apply wf_admitted.
  - intros. by apply wf_subscribed.
Qed.

(** The hypothesis [wf] of the theorems above holds in every reachable
    state. *)
Lemma reachable_wf rt w : reachable rt w → wf (clients w).
Proof.
  induction 1 as [|w now ev w' _ IH _ Hrun].
  - split_and!; [constructor|constructor|apply map_Forall_empty].
  - pose proof (wf_handle rt now ev w IH) as Hwf. by rewrite Hrun in Hwf.
Qed.

(** ** No empty device set in a reachable state *)

Lemma no_empty_set_admitted ws clientTypeParam deviceId c :
  no_empty_set c → no_empty_set (admitted ws clientTypeParam deviceId c).
Proof.
  intros Hc. unfold admitted. case_decide; [done|].
  destruct deviceId as [d|]; [|done]. destruct (truthy _); [|done].
  by apply no_empty_set_subscribed.
Qed.

(** X17.  An empty set never outlives the event that emptied it: in every
    state the process can reach, each device that has a subscriber set has
    a non-empty one. *)
Lemma reachable_no_empty_set rt w : reachable rt w → no_empty_set (clients w).
Proof.
  induction 1 as [|w now ev w' _ IH _ Hrun].
  - intros d s Hs. cbn in Hs. by rewrite lookup_empty in Hs.
  - assert (Hw' : clients w' = clients (handle rt now ev w).2) by by rewrite Hrun.
    destruct ev as [ws ct dev|ws msg|ws|ws| | | |ws]; cbn [handle] in *.
    + unfold bind at 1 in Hw'. cbn [modify_socket] in Hw'.
      rewrite on_connection_clients in Hw'. rewrite Hw'. by apply no_empty_set_admitted.
    + rewrite Hw'. destruct (on_message_clients ws msg now w) as [->|(d & _ & ->)];
        [done|by apply no_empty_set_subscribed].
    + by rewrite Hw'.
    + rewrite Hw'. apply cleanup_empty_no_empty_set.
    + by apply (heartbeat_no_empty_set rt now w).
    + rewrite Hw'. rewrite snd_bind_fixed by (intros; apply preserves_ret, _).
      by rewrite (proj1 (only_sent_broadcastTelemetry _ _ w)).
    + rewrite Hw'. by rewrite (proj1 (only_sent_broadcastAlarm _ _ w)).
    + by rewrite Hw'.
Qed.

(** ** Who is in the device sets *)

Lemma sac_consumer_removed ws c :
  subscribers_are_consumers c → subscribers_are_consumers (consumer_removed ws c).
Proof.
  intros Hc d s x (s0 & Hs0 & ->)%delete_from_all_lookup [Hne Hx]%elem_of_Set_delete.
  cbn. apply elem_of_Set_delete. split; [done|]. by apply (Hc d s0).
Qed.

Lemma sac_cleanup_empty c :
  subscribers_are_consumers c → subscribers_are_consumers (cleanup_empty c).
Proof. intros Hc d s x Hs%cleanup_empty_lookup Hx. by apply (Hc d s). Qed.

Lemma sac_subscribed d ws c :
  ws ∈ consumers c →
  subscribers_are_consumers c → subscribers_are_consumers (subscribed d ws c).
Proof.
  intros Hws Hc d' s x Hs Hx. change (x ∈ consumers c).
  destruct (decide (d' = d)) as [->|Hne].
  - rewrite subscribed_lookup in Hs. injection Hs as <-.
    apply elem_of_Set_add in Hx as [->|Hx]; [done|].
    destruct (deviceSubscriptions c !! d) as [s0|] eqn:E; [by apply (Hc d s0)|].
    by apply elem_of_nil in Hx.
  - rewrite subscribed_lookup_ne in Hs by done. by apply (Hc d' s).
Qed.

Lemma sac_admitted ws clientTypeParam deviceId c :
  subscribers_are_consumers c →
  subscribers_are_consumers (admitted ws clientTypeParam deviceId c).
Proof.
  intros Hc. unfold admitted. case_decide; [done|].
  assert (subscribers_are_consumers (set_consumers (Set_add ws (consumers c)) c)) as Hc'.
  { intros d s x Hs Hx. cbn. apply elem_of_Set_add. right. by apply (Hc d s). }
  destruct deviceId as [d|]; [|done]. destruct (truthy _); [|done].
  apply sac_subscribed; [|done]. cbn. apply elem_of_Set_add. by left.
Qed.

(** X19.  Admission, pongs, the close handler, the sweep, the broadcasts
    and the frames sent by members of [clients.consumers] keep the device
    sets within the consumers.  The one event left out is a frame from a
    connection that is not a consumer. *)
Lemma subscribers_are_consumers_kept rt now ev w :
  (∀ ws message, ev = Message ws message → ws ∈ consumers (clients w)) →
  subscribers_are_consumers (clients w) →
  subscribers_are_consumers (clients (handle rt now ev w).2).
Proof.
  intros Hev Hc. apply handle_keeps; try done.
  - apply sac_consumer_removed.
  - apply sac_cleanup_empty.
  - intros. by apply sac_admitted.
  - intros ws message d -> _. apply sac_subscribed; [by apply (Hev ws message)|done].
Qed.

(** ** No connection has two roles *)

Lemma roles_disjoint_handle rt now ev w :
  enabled ev w → roles_disjoint (clients w) →
  roles_disjoint (clients (handle rt now ev w).2).
Proof.
  intros Hen Hd. apply handle_keeps; try done.
  - intros ws c Hc x [_ Hx]%elem_of_Set_delete. by apply Hc.
  - intros ws c Hc x Hx [_ Hx']%elem_of_Set_delete. by apply (Hc x).
  - intros ws ct dev ->. destruct Hen as [_ Hfresh].
    assert (Hnc : ws ∉ consumers (clients w)) by (intros ?; apply Hfresh; by left).
    assert (Hnp : ws ∉ producers (clients w)) by (intros ?; apply Hfresh; right; by left).
    unfold admitted. case_decide.
    + intros x [->|Hx]%elem_of_Set_add; [done|by apply Hd].
    + assert (roles_disjoint (set_consumers (Set_add ws (consumers (clients w))) (clients w)))
        as Hd'.
      { intros x Hx [->|Hx']%elem_of_Set_add; [done|by apply (Hd x)]. }
      destruct dev as [d|]; [|done]. by destruct (truthy _).
Qed.

Lemma reachable_roles_disjoint rt w : reachable rt w → roles_disjoint (clients w).
Proof.
  induction 1 as [|w now ev w' _ IH Hen Hrun].
  - intros x Hx. by apply elem_of_nil in Hx.
  - pose proof (roles_disjoint_handle rt now ev w Hen IH) as Hd. by rewrite Hrun in Hd.
Qed.

(** ** The sweep on a runtime whose global [WebSocket.OPEN] is 1 *)

Lemma check_producer_visits now :
  visits now producer_deleted (check_producer node_with_WebSocket now).
Proof.
  intros x w. unfold check_producer, bind, get_socket, swept, idle.
  case_decide as Hidle.
  - eexists. split; [reflexivity|]. rewrite bool_decide_eq_true_2 by done.
    split_and!; [done|done|]. intros y. cbn. unfold update.
    case_decide; [|done]. subst y. by rewrite bool_decide_eq_true_2.
  - rewrite bool_decide_eq_false_2 by done. cbn [read_WebSocket_OPEN node_with_WebSocket
      WebSocket_OPEN ret]. unfold ws_ping, bind, get_socket.
    case_decide as Ho.
    + rewrite Ho. rewrite decide_False by done. rewrite decide_True by done.
      eexists. split; [reflexivity|]. split_and!; [done|done|].
      intros y. cbn. unfold update. case_decide; [|done]. subst y.
      rewrite bool_decide_eq_false_2 by done. by rewrite decide_True.
    + exists w. split; [reflexivity|]. split_and!; [done|done|].
      intros y. unfold update. case_decide; [|done]. subst y.
      rewrite bool_decide_eq_false_2 by done. by rewrite decide_False.
Qed.

Lemma check_consumer_visits now :
  visits now consumer_removed (check_consumer node_with_WebSocket now).
Proof.
  intros x w. unfold check_consumer, bind, get_socket, swept, idle.
  case_decide as Hidle.
  - eexists. split; [reflexivity|]. rewrite bool_decide_eq_true_2 by done.
    split_and!; [done|done|]. intros y. cbn. unfold update.
    case_decide; [|done]. subst y. by rewrite bool_decide_eq_true_2.
  - rewrite bool_decide_eq_false_2 by done. cbn [read_WebSocket_OPEN node_with_WebSocket
      WebSocket_OPEN ret]. unfold ws_ping, bind, get_socket.
    case_decide as Ho.
    + rewrite Ho. rewrite decide_False by done. rewrite decide_True by done.
      eexists. split; [reflexivity|]. split_and!; [done|done|].
      intros y. cbn. unfold update. case_decide; [|done]. subst y.
      rewrite bool_decide_eq_false_2 by done. by rewrite decide_True.
    + exists w. split; [reflexivity|]. split_and!; [done|done|].
      intros y. unfold update. case_decide; [|done]. subst y.
      rewrite bool_decide_eq_false_2 by done. by rewrite decide_False.
Qed.

Lemma foldl_ext_elem {A B} (f g : A → B → A) (l : list B) (a : A) :
  (∀ a x, x ∈ l → f a x = g a x) → foldl f a l = foldl g a l.
Proof.
  revert a. induction l as [|b l IH]; intros a Hfg; [done|]. simpl.
  rewrite (Hfg a b) by left. apply IH. intros a' x Hx. apply Hfg. by right.
Qed.

Lemma sweep_loop now del body :
  visits now del body →
  ∀ l w, NoDup l →
    ∃ w', forEach l body w = (Normal (), w') ∧
      clients w' = reaped del (λ x, idle now (heap w x)) l (clients w) ∧
      stderr w' = stderr w ∧
      ∀ y, heap w' y = if decide (y ∈ l) then swept now (heap w y) else heap w y.
Proof.
  intros Hbody. induction l as [|a l IH]; intros w Hnd.
  - exists w. by split_and!.
  - apply NoDup_cons in Hnd as [Ha Hnd].
    destruct (Hbody a w) as (w2 & Hrun & Hc & He & Hh).
    destruct (IH w2 Hnd) as (w' & Hrun' & Hc' & He' & Hh').
    assert (Hsame : ∀ x, x ∈ l → heap w2 x = heap w x).
    { intros x Hx. rewrite Hh. unfold update. rewrite decide_False; [done|].
      by intros ->. }
    exists w'. split_and!.
    + simpl. unfold bind. by rewrite Hrun.
    + rewrite Hc', Hc. unfold reaped. simpl. apply foldl_ext_elem.
      intros c x Hx. by rewrite Hsame.
    + congruence.
    + intros y. rewrite Hh'. destruct (decide (y = a)) as [->|Hne].
      * rewrite decide_False by done. rewrite decide_True by left.
        rewrite Hh. unfold update. by rewrite decide_True.
      * assert (heap w2 y = heap w y) as ->.
        { rewrite Hh. unfold update. by rewrite decide_False. }
        apply decide_ext. rewrite elem_of_cons. tauto.
Qed.

Lemma reaped_cons del P a l c :
  reaped del P (a :: l) c = reaped del P l (if P a then del a c else c).
Proof. reflexivity. Qed.

Lemma reaped_producers P l c :
  let c' := reaped producer_deleted P l c in
  consumers c' = consumers c ∧ deviceSubscriptions c' = deviceSubscriptions c ∧
  ∀ x, x ∈ producers c' ↔ x ∈ producers c ∧ ¬ (x ∈ l ∧ P x).
Proof.
  revert c. induction l as [|a l IH]; intros c; cbn zeta.
  - split_and!; [done|done|]. intros x. rewrite elem_of_nil. tauto.
  - rewrite reaped_cons. destruct (P a) eqn:HPa.
    + destruct (IH (producer_deleted a c)) as (-> & -> & Hp). split_and!; [done|done|].
      intros x. rewrite Hp. cbn. rewrite elem_of_Set_delete, elem_of_cons. split.
      * intros [[Hne Hx] Hn]. split; [done|]. intros [[->|Hl] HP]; [done|]. by apply Hn.
      * intros [Hx Hn]. split_and!; [|done|].
        -- intros ->. apply Hn. split; [by left|by rewrite HPa].
        -- intros [Hl HP]. apply Hn. split; [by right|done].
    + destruct (IH c) as (-> & -> & Hp). split_and!; [done|done|].
      intros x. rewrite Hp, elem_of_cons. split.
      * intros [Hx Hn]. split; [done|]. intros [[->|Hl] HP]; [by rewrite HPa in HP|].
        by apply Hn.
      * intros [Hx Hn]. split; [done|]. intros [Hl HP]. apply Hn. split; [by right|done].
Qed.

Lemma reaped_consumers P l c :
  let c' := reaped consumer_removed P l c in
  producers c' = producers c ∧
  (∀ x, x ∈ consumers c' ↔ x ∈ consumers c ∧ ¬ (x ∈ l ∧ P x)) ∧
  (∀ d s, deviceSubscriptions c' !! d = Some s →
     ∃ s0, deviceSubscriptions c !! d = Some s0 ∧
       ∀ x, x ∈ s ↔ x ∈ s0 ∧ ¬ (x ∈ l ∧ P x)).
Proof.
  revert c. induction l as [|a l IH]; intros c; cbn zeta.
  - split_and!; [done| |].
    + intros x. rewrite elem_of_nil. tauto.
    + intros d s Hs. exists s. split; [done|]. intros x. rewrite elem_of_nil. tauto.
  - rewrite reaped_cons. destruct (P a) eqn:HPa.
    + destruct (IH (consumer_removed a c)) as (-> & Hc & Hd). split_and!; [done| |].
      * intros x. rewrite Hc. cbn. rewrite elem_of_Set_delete, elem_of_cons. split.
        -- intros [[Hne Hx] Hn]. split; [done|]. intros [[->|Hl] HP]; [done|]. by apply Hn.
        -- intros [Hx Hn]. split_and!; [|done|].
           ++ intros ->. apply Hn. split; [by left|by rewrite HPa].
           ++ intros [Hl HP]. apply Hn. split; [by right|done].
      * intros d s Hs. destruct (Hd d s Hs) as (s1 & Hs1 & Hmem).
        apply delete_from_all_lookup in Hs1 as (s0 & Hs0 & ->). cbn in Hs0.
        exists s0. split; [done|]. intros x.
        rewrite Hmem, elem_of_Set_delete, elem_of_cons. split.
        -- intros [[Hne Hx] Hn]. split; [done|]. intros [[->|Hl] HP]; [done|]. by apply Hn.
        -- intros [Hx Hn]. split_and!; [|done|].
           ++ intros ->. apply Hn. split; [by left|by rewrite HPa].
           ++ intros [Hl HP]. apply Hn. split; [by right|done].
    + destruct (IH c) as (-> & Hc & Hd). split_and!; [done| |].
      * intros x. rewrite Hc, elem_of_cons. split.
        -- intros [Hx Hn]. split; [done|]. intros [[->|Hl] HP]; [by rewrite HPa in HP|].
           by apply Hn.
        -- intros [Hx Hn]. split; [done|]. intros [Hl HP]. apply Hn. split; [by right|done].
      * intros d s Hs. destruct (Hd d s Hs) as (s0 & Hs0 & Hmem).
        exists s0. split; [done|]. intros x. rewrite Hmem, elem_of_cons. split.
        -- intros [Hx Hn]. split; [done|]. intros [[->|Hl] HP]; [by rewrite HPa in HP|].
           by apply Hn.
        -- intros [Hx Hn]. split; [done|]. intros [Hl HP]. apply Hn. split; [by right|done].
Qed.

Lemma lastActivity_swept now s : lastActivity (swept now s) = lastActivity s.
Proof.
  unfold swept, terminate_socket. destruct (idle now s); [by case_decide|].
  by case_decide.
Qed.

Lemma reaped_ext del P Q l c :
  (∀ x, x ∈ l → P x = Q x) → reaped del P l c = reaped del Q l c.
Proof. intros HPQ. apply foldl_ext_elem. intros c' x Hx. by rewrite HPQ. Qed.

(** The whole tick: it completes, every producer and then every consumer is
    visited once, the registry loses the connections that are past the
    deadline, and the empty device sets are deleted. *)
Lemma heartbeat_with_WebSocket now w :
  wf (clients w) →
  let t := getTime now in
  let past := λ x, idle t (heap w x) in
  ∃ w', heartbeat node_with_WebSocket now w = (Normal (), w') ∧
    clients w' =
      cleanup_empty
        (reaped consumer_removed past (consumers (clients w))
           (reaped producer_deleted past (producers (clients w)) (clients w))) ∧
    ∀ y, heap w' y =
         (if decide (y ∈ consumers (clients w)) then swept t else id)
           ((if decide (y ∈ producers (clients w)) then swept t else id) (heap w y)).
Proof.
  intros (Hc & Hp & _) t past.
  destruct (sweep_loop t _ _ (check_producer_visits t) (producers (clients w)) w Hp)
    as (w1 & Hrun1 & Hc1 & _ & Hh1).
  fold past in Hc1.
  destruct (reaped_producers past (producers (clients w)) (clients w)) as (Hcons & _ & _).
  rewrite <- Hc1 in Hcons.
  assert (Hc' : NoDup (consumers (clients w1))) by by rewrite Hcons.
  destruct (sweep_loop t _ _ (check_consumer_visits t) (consumers (clients w1)) w1 Hc')
    as (w2 & Hrun2 & Hc2 & _ & Hh2).
  eexists. split_and!.
  - unfold heartbeat. fold t. unfold bind at 1. cbn [get_clients].
    unfold bind at 1. rewrite Hrun1.
    unfold bind at 1. cbn [get_clients].
    unfold bind at 1. rewrite Hrun2. reflexivity.
  - cbn. f_equal. rewrite Hc2, Hcons, Hc1. apply reaped_ext.
    intros x _. unfold past, idle. rewrite Hh1.
    case_decide; [by rewrite lastActivity_swept|done].
  - intros y. cbn [heap]. rewrite Hh2, Hcons, Hh1. by repeat case_decide.
Qed.

(** On such a runtime the sweep is the liveness probe it is meant to be: it
    completes, and a registered connection that is within the deadline and
    open has been sent one ping. *)
Lemma sweep_pings_with_WebSocket now w c :
  wf (clients w) →
  (c ∈ producers (clients w) ∧ c ∉ consumers (clients w)) ∨
  (c ∈ consumers (clients w) ∧ c ∉ producers (clients w)) →
  (getTime now - lastActivity (heap w c) ≤ 120000)%Z →
  readyState (heap w c) = 1%Z →
  ∃ w', heartbeat node_with_WebSocket now w = (Normal (), w') ∧
    sent (heap w' c) = (sent (heap w c) ++ [Ping])%list.
Proof.
  intros Hwf Hreg Hact Ho.
  destruct (heartbeat_with_WebSocket now w Hwf) as (w' & Hrun & _ & Hheap).
  exists w'. split; [done|]. rewrite Hheap.
  assert (Hsw : swept (getTime now) (heap w c) = push_frame Ping (heap w c)).
  { unfold swept, idle. rewrite bool_decide_eq_false_2 by lia. by rewrite decide_True. }
  destruct Hreg as [[Hp Hc]|[Hc Hp]].
  - rewrite (decide_True _ _ Hp), (decide_False _ _ Hc). cbn. by rewrite Hsw.
  - rewrite (decide_False _ _ Hp), (decide_True _ _ Hc). cbn. by rewrite Hsw.
Qed.

(** And, where the device sets hold consumers only, it reaps: a
    registered connection past the deadline is terminated and is afterwards
    in neither role set and in no device set. *)
Lemma sweep_reaps_with_WebSocket now w c :
  wf (clients w) → subscribers_are_consumers (clients w) →
  c ∈ producers (clients w) ∨ c ∈ consumers (clients w) →
  (getTime now - lastActivity (heap w c) > 120000)%Z →
  ∃ w', heartbeat node_with_WebSocket now w = (Normal (), w') ∧
    terminated (heap w' c) = true ∧
    (c ∉ producers (clients w')) ∧ (c ∉ consumers (clients w')) ∧
    ∀ d s, deviceSubscriptions (clients w') !! d = Some s → c ∉ s.
Proof.
  intros Hwf Hsac Hreg Hidle.
  destruct (heartbeat_with_WebSocket now w Hwf) as (w' & Hrun & Hcl & Hheap).
  cbv zeta in Hcl.
  set (past := λ x, idle (getTime now) (heap w x)) in *.
  assert (Hpast : past c) by (unfold past, idle; by apply bool_decide_pack).
  destruct (reaped_producers past (producers (clients w)) (clients w))
    as (Hcons1 & Hsubs1 & Hprod1).
  destruct (reaped_consumers past (consumers (clients w))
              (reaped producer_deleted past (producers (clients w)) (clients w)))
    as (Hprod2 & Hcons2 & Hsubs2).
  exists w'. split; [done|]. split_and!.
  - rewrite Hheap.
    assert (Hsw : ∀ s, idle (getTime now) s → terminated (swept (getTime now) s) = true).
    { intros s Hs. unfold swept. by destruct (idle (getTime now) s). }
    assert (Hsw' : idle (getTime now) (swept (getTime now) (heap w c))).
    { unfold idle. by rewrite lastActivity_swept. }
    destruct Hreg as [Hp|Hc].
    + rewrite (decide_True _ _ Hp). case_decide; cbn; by apply Hsw.
    + rewrite (decide_True _ _ Hc). case_decide; cbn; by apply Hsw.
  - rewrite Hcl. cbn [cleanup_empty set_deviceSubscriptions producers]. rewrite Hprod2.
    intros [Hin Hn]%Hprod1. by apply Hn.
  - rewrite Hcl. cbn [cleanup_empty set_deviceSubscriptions consumers].
    intros [Hin Hn]%Hcons2. apply Hn. split; [|done]. by rewrite <- Hcons1.
  - rewrite Hcl. intros d s Hs%cleanup_empty_lookup Hin.
    destruct (Hsubs2 d s Hs) as (s0 & Hs0 & Hmem). rewrite Hsubs1 in Hs0.
    destruct (proj1 (Hmem c) Hin) as [Hin0 Hn]. apply Hn. split; [|done].
    by apply (Hsac d s0).
Qed.

(** X18.  In a reachable state of a runtime whose global [WebSocket.OPEN]
    is 1, the sweep completes and every registered connection that is within
    the deadline and open gets exactly one ping from it. *)
Lemma reachable_sweep_pings now w c :
  reachable node_with_WebSocket w →
  c ∈ producers (clients w) ∨ c ∈ consumers (clients w) →
  (getTime now - lastActivity (heap w c) ≤ 120000)%Z →
  readyState (heap w c) = 1%Z →
  ∃ w', heartbeat node_with_WebSocket now w = (Normal (), w') ∧
    sent (heap w' c) = (sent (heap w c) ++ [Ping])%list.
Proof.
  intros Hw Hreg Hact Ho.
  apply sweep_pings_with_WebSocket; [by apply (reachable_wf node_with_WebSocket)| |done|done].
  pose proof (reachable_roles_disjoint _ _ Hw) as Hd.
  destruct Hreg as [Hp|Hc]; [left|right]; split; try done.
  - by apply Hd.
  - intros Hp. by apply (Hd c).
Qed.

(** ** The sweep on a runtime without a global [WebSocket] *)

#[local] Instance quiet_preorder : PreOrder quiet.
Proof.
  split.
  - by intros w x.
  - intros w1 w2 w3 H1 H2 x. destruct (H1 x), (H2 x). split; congruence.
Qed.

#[local] Instance quiet_for_consumers_preorder : PreOrder quiet_for_consumers.
Proof.
  split.
  - intros w. split; [reflexivity|done].
  - intros w1 w2 w3 [H1 E1] [H2 E2]. split; [by etrans|congruence].
Qed.

Lemma quiet_terminate x w :
  quiet w (mkWorld (clients w) (update x terminate_socket (heap w)) (stderr w)).
Proof.
  intros y. cbn. unfold update. case_decide; [|done]. subst y.
  unfold terminate_socket. by case_decide.
Qed.

Lemma forallb_pointwise {A} (f g : A → bool) (l : list A) :
  (∀ x, f x = g x) → forallb f l = forallb g l.
Proof. intros Hfg. induction l as [|a l IH]; [done|]. simpl. by rewrite Hfg, IH. Qed.

Section unbound.
Context (rt : Runtime) (Hrt : WebSocket_OPEN rt = None) (now : Z).

Lemma check_producer_unbound x :
  preserves quiet_for_consumers (check_producer rt now x) ∧
  ∀ w, (check_producer rt now x w).1
       = if idle now (heap w x) then Normal () else Throw ReferenceError.
Proof.
  split; intros w; unfold check_producer, bind, get_socket, read_WebSocket_OPEN, idle;
    rewrite Hrt; case_decide.
  - split; [apply quiet_terminate|done].
  - reflexivity.
  - by rewrite bool_decide_eq_true_2.
  - by rewrite bool_decide_eq_false_2.
Qed.

Lemma check_consumer_unbound x :
  preserves quiet (check_consumer rt now x) ∧
  ∀ w, (check_consumer rt now x w).1
       = if idle now (heap w x) then Normal () else Throw ReferenceError.
Proof.
  split; intros w; unfold check_consumer, bind, get_socket, read_WebSocket_OPEN, idle;
    rewrite Hrt; case_decide.
  - apply quiet_terminate.
  - reflexivity.
  - by rewrite bool_decide_eq_true_2.
  - by rewrite bool_decide_eq_false_2.
Qed.

(** A loop whose body throws at the first member within the deadline. *)
Lemma forEach_until_active (R : relation World) `{!PreOrder R} body :
  (∀ w w', R w w' → quiet w w') →
  (∀ x, preserves R (body x)) →
  (∀ x w, (body x w).1 = if idle now (heap w x) then Normal () else Throw ReferenceError) →
  ∀ l w, (forEach l body w).1
         = if forallb (λ x, idle now (heap w x)) l then Normal () else Throw ReferenceError.
Proof.
  intros HR Hpres Hfst. induction l as [|a l IH]; intros w; [done|].
  simpl. unfold bind. specialize (Hfst a w). specialize (Hpres a w).
  destruct (body a w) as [[[]|e] w1]; simpl in *.
  - destruct (idle now (heap w a)); [|done]. simpl. rewrite IH.
    assert (Hsame : ∀ x, idle now (heap w1 x) = idle now (heap w x)).
    { intros x. unfold idle. by destruct (HR _ _ Hpres x) as [-> _]. }
    by rewrite (forallb_pointwise _ _ l Hsame).
  - by destruct (idle now (heap w a)).
Qed.
End unbound.

(** Where [WebSocket] is unbound, a sweep that finds a registered
    connection within its deadline throws, and nothing has been sent when
    it does. *)
Lemma sweep_throws_without_WebSocket rt now w c :
  WebSocket_OPEN rt = None →
  c ∈ producers (clients w) ∨ c ∈ consumers (clients w) →
  (getTime now - lastActivity (heap w c) ≤ 120000)%Z →
  ∃ w', heartbeat rt now w = (Throw ReferenceError, w') ∧
    ∀ x, sent (heap w' x) = sent (heap w x).
Proof.
  intros Hrt Hreg Hact. set (t := getTime now).
  assert (Hc : idle t (heap w c) = false) by (unfold idle; apply bool_decide_eq_false_2; lia).
  pose proof (forEach_until_active t quiet_for_consumers (check_producer rt t)
    (λ _ _ H, proj1 H) (λ x, proj1 (check_producer_unbound rt Hrt t x))
    (λ x, proj2 (check_producer_unbound rt Hrt t x)) (producers (clients w)) w) as H1.
  pose proof (preserves_forEach quiet_for_consumers (producers (clients w))
    (check_producer rt t) (λ x, proj1 (check_producer_unbound rt Hrt t x)) w) as [Hq1 Hc1].
  unfold heartbeat. fold t. unfold bind at 1. cbn [get_clients].
  unfold bind at 1.
  destruct (forEach (producers (clients w)) (check_producer rt t) w) as [r1 w1].
  simpl in H1, Hq1, Hc1. subst r1.
  destruct (forallb _ (producers (clients w))) eqn:Hall.
  - unfold bind at 1. cbn [get_clients]. unfold bind at 1.
    pose proof (forEach_until_active t quiet (check_consumer rt t)
      (λ _ _ H, H) (λ x, proj1 (check_consumer_unbound rt Hrt t x))
      (λ x, proj2 (check_consumer_unbound rt Hrt t x)) (consumers (clients w1)) w1) as H2.
    pose proof (preserves_forEach quiet (consumers (clients w1))
      (check_consumer rt t) (λ x, proj1 (check_consumer_unbound rt Hrt t x)) w1) as Hq2.
    destruct (forEach (consumers (clients w1)) (check_consumer rt t) w1) as [r2 w2].
    simpl in H2, Hq2. subst r2.
    assert (Hin : c ∈ consumers (clients w1)).
    { rewrite Hc1. destruct Hreg as [Hp|?]; [|done].
      rewrite forallb_forall in Hall. apply list_elem_of_In, Hall in Hp.
      by rewrite Hc in Hp. }
    assert (Hnot : forallb (λ x, idle t (heap w1 x)) (consumers (clients w1)) = false).
    { apply not_true_is_false. rewrite forallb_forall. intros Hall2.
      apply list_elem_of_In, Hall2 in Hin. unfold idle in Hin, Hc.
      destruct (Hq1 c) as [E _]. rewrite E in Hin. by rewrite Hc in Hin. }
    rewrite Hnot. eexists. split; [reflexivity|].
    intros x. destruct (Hq1 x) as [_ E1], (Hq2 x) as [_ E2]. congruence.
  - eexists. split; [reflexivity|]. intros x. by destruct (Hq1 x).
Qed.

(** ** Runs of the process *)

Lemma run_Normal (m : JS unit) w : (m w).1 = Normal () → m w = (Normal (), (m w).2).
Proof. destruct (m w) as [r w']. simpl. by intros ->. Qed.

(** One step of a run from a reachable state, checked by evaluation. *)
Lemma reachable_next rt w now ev :
  reachable rt w → enabled ev w → (handle rt now ev w).1 = Normal () →
  reachable rt (handle rt now ev w).2.
Proof. intros Hw Hen Hn. eapply reachable_step; [done|done|by apply run_Normal]. Qed.

Lemma one_consumer_reachable rt : reachable rt (one_consumer rt).
Proof.
  apply reachable_next; [apply reachable_initial| |done].
  apply (bool_decide_unpack _). by vm_compute.
Qed.

Lemma producer_subscribed_reachable rt : reachable rt (producer_subscribed rt).
Proof.
  apply reachable_next; [apply reachable_next| |done];
    [apply reachable_initial| |done|]; apply (bool_decide_unpack _); by vm_compute.
Qed.

(** C2.  The device sets do not hold consumers only: a producer that sends a
    [subscribe] frame is added to the device's set like any other sender.
    The state below is reached by a producer that connects and subscribes to
    d1. *)
Theorem producer_enters_device_set_by_subscribe rt :
  let w := producer_subscribed rt in
  reachable rt w ∧
  clientType (heap w 0) = "producer" ∧
  producers (clients w) = [0] ∧ consumers (clients w) = [] ∧
  deviceSubscriptions (clients w) !! "d1" = Some [0].
Proof. split; [apply producer_subscribed_reachable|]. by vm_compute. Qed.

(** C3.  On a runtime that defines no global [WebSocket], the sweep that
    finds one open consumer within its deadline throws a [ReferenceError]
    and sends no ping. *)
Theorem sweep_throws_where_WebSocket_is_unbound :
  let rt := node_without_WebSocket in
  let w := one_consumer rt in
  reachable rt w ∧
  consumers (clients w) = [1] ∧ readyState (heap w 1) = 1%Z ∧
  (getTime T30 - lastActivity (heap w 1) ≤ 120000)%Z ∧
  (heartbeat rt T30 w).1 = Throw ReferenceError ∧
  Ping ∉ sent (heap (heartbeat rt T30 w).2 1).
Proof.
  split; [apply one_consumer_reachable|]. split_and!; try by vm_compute.
  apply (bool_decide_unpack _). by vm_compute.
Qed.


(** The same defect seen from an idle connection: where [WebSocket] is
    unbound the sweep stops at the producer, which is within its deadline,
    and the consumer that is past the deadline is neither terminated nor
    deleted from [clients.consumers]. *)
Lemma aborted_sweep_spares_idle_consumer :
  let rt := node_without_WebSocket in
  let w := active_producer_idle_consumer rt in
  let w' := (heartbeat rt T200 w).2 in
  (getTime T200 - lastActivity (heap w 1) > 120000)%Z ∧
  (heartbeat rt T200 w).1 = Throw ReferenceError ∧
  terminated (heap w' 1) = false ∧
  consumers (clients w') = [1].
Proof. by vm_compute. Qed.

(** ** The properties at work on concrete runs *)

Lemma four_clients_wf : wf (clients four_clients).
Proof. apply (bool_decide_unpack _). by vm_compute. Defined.




Lemma broadcastAlarm_reaches_every_open_consumer_witness :
  NoDup (consumers (clients four_clients)) ∧
  ∃ w', broadcastAlarm alarm_d1 T30 four_clients = (Normal (), w') ∧
    let m := alarm_message alarm_d1 T30 in
    delivered_once m four_clients w' 1 ∧
    delivered_once m four_clients w' 2 ∧
    delivered_once m four_clients w' 3.
Proof.
  assert (Hnd : NoDup (consumers (clients four_clients)))
    by (apply (bool_decide_unpack _); by vm_compute).
  split; [exact Hnd|].
  destruct (broadcastAlarm_reaches_every_open_consumer alarm_d1 T30 four_clients Hnd)
    as (w' & Hrun & Hall & _).
  exists w'. split; [exact Hrun|]. cbv zeta.
  split_and!; apply Hall; try (by vm_compute); apply (bool_decide_unpack _); by vm_compute.
Defined.


Lemma no_empty_set_after_close_and_sweep_witness :
  deviceSubscriptions (clients four_clients) !! "d1" = Some [1] ∧
  (let w' := (on_close 1 four_clients).2 in
   no_empty_set (clients w') ∧
   deviceSubscriptions (clients w') !! "d1" = None) ∧
  deviceSubscriptions (clients d1_consumer_idle) !! "d1" = Some [1] ∧
  (let w' := (heartbeat node_with_WebSocket T200 d1_consumer_idle).2 in
   heartbeat node_with_WebSocket T200 d1_consumer_idle = (Normal (), w') ∧
   terminated (heap w' 1) = true ∧
   no_empty_set (clients w') ∧
   deviceSubscriptions (clients w') !! "d1" = None).
Proof.
  destruct no_empty_set_after_close_and_sweep as [Hclose Hsweep].
  split; [vm_compute; reflexivity|]. split.
  - cbv zeta. split; [|vm_compute; reflexivity].
    destruct (Hclose 1 four_clients) as (w' & Hrun & Hne & _).
    rewrite Hrun. exact Hne.
  - split; [vm_compute; reflexivity|]. cbv zeta.
    assert (Hrun : heartbeat node_with_WebSocket T200 d1_consumer_idle
                   = (Normal (), (heartbeat node_with_WebSocket T200 d1_consumer_idle).2))
      by (apply run_Normal; vm_compute; reflexivity).
    split; [exact Hrun|]. split; [vm_compute; reflexivity|].
    split; [exact (Hsweep _ _ _ _ Hrun)|vm_compute; reflexivity].
Defined.

Lemma subscribe_without_deviceId_only_touches_activity_witness :
  subscribe_nothing !! "type" = Some "subscribe" ∧
  subscribe_nothing !! "deviceId" = None ∧
  on_message 2 (JsonText (JObject subscribe_nothing)) T30 four_clients =
    (Normal (),
     mkWorld (clients four_clients)
       (update 2 (set_lastActivity (getTime T30)) (heap four_clients))
       (stderr four_clients)) ∧
  ∃ w', on_message 2 (JsonText (JObject {[ "type" := "status" ]})) T30 four_clients
        = (Normal (), w') ∧
        lastActivity (heap w' 2) = 30000%Z.
Proof.
  destruct (subscribe_without_deviceId_only_touches_activity 2 T30 four_clients)
    as [Hsub Hany].
  split; [vm_compute; reflexivity|]. split; [vm_compute; reflexivity|]. split.
  - apply Hsub; vm_compute; reflexivity.
  - apply Hany.
Defined.

(** * Further properties of the relay *)

(** ** The connection handler *)






(** ** The message handler, frame by frame *)

Lemma on_message_object ws o now w :
  on_message ws (JsonText (JObject o)) now w =
  try_catch (dispatch ws (JObject o) now)
    (λ error, console_error "Error parsing message:" error) (touched ws now w).
Proof. reflexivity. Qed.

Lemma dispatch_object ws o now :
  dispatch ws (JObject o) now =
  if decide (o !! "type" = Some "telemetry") then
    broadcastTelemetry o now ;;; ret ()
  else if decide (o !! "type" = Some "alarm") then broadcastAlarm o now
  else if decide (o !! "type" = Some "ping") then ws_send ws (pong_message now)
  else if decide (o !! "type" = Some "subscribe") then
    match o !! "deviceId" with
    | Some d =>
        if truthy (o !! "deviceId") then
          subscribe_device d ws ;;; ws_send ws (subscription_confirmed d now)
        else ret ()
    | None => ret ()
    end
  else ret ().
Proof. reflexivity. Qed.


Lemma ws_send_not_connecting ws m w :
  readyState (heap w ws) ≠ 0%Z →
  ws_send ws m w
  = (Normal (), if decide (readyState (heap w ws) = 1%Z) then deliver m ws w else w).
Proof.
  intros H. unfold ws_send, bind, get_socket. rewrite decide_False by done.
  by case_decide.
Qed.



(** X3.  A frame of type [ping] is answered to its sender and to nobody
    else: the sender's activity timestamp is set, one [pong] carrying the
    time of the reply is written to the sender if its channel is open, and
    the registry and every other connection are left as they were.  Only a
    sender whose channel is still connecting makes [send] throw, which the
    handler logs. *)
Theorem ping_frame_is_answered_to_sender_only ws o now w :
  o !! "type" = Some "ping" →
  ∃ w', on_message ws (JsonText (JObject o)) now w = (Normal (), w') ∧
    clients w' = clients w ∧
    heap w' ws =
      (if decide (readyState (heap w ws) = 1%Z)
       then push_frame (Text (pong_message now)) else id)
        (set_lastActivity (getTime now) (heap w ws)) ∧
    (∀ x, x ≠ ws → heap w' x = heap w x) ∧
    stderr w' =
      (if decide (readyState (heap w ws) = 0%Z)
       then stderr w ++ [("Error parsing message:", NotOpenError)] else stderr w)%list ∧
    pong_message now !! "timestamp" = Some (toISOString now).
Proof.
  intros Hty. rewrite on_message_object, dispatch_object.
  rewrite !decide_False by (rewrite Hty; done). rewrite decide_True by done.
  assert (Hr : readyState (heap (touched ws now w) ws) = readyState (heap w ws)).
  { cbn. unfold update. by rewrite decide_True. }
  unfold try_catch. destruct (decide (readyState (heap w ws) = 0%Z)) as [H0|H0].
  - unfold ws_send, bind, get_socket. rewrite Hr, decide_True by done.
    eexists. split; [reflexivity|]. cbn. unfold update.
    rewrite decide_True by done. rewrite decide_False by (rewrite H0; done).
    split_and!; try done. intros x Hne. by rewrite decide_False.
  - rewrite ws_send_not_connecting by (by rewrite Hr). rewrite Hr.
    eexists. split; [reflexivity|]. case_decide; cbn; unfold update.
    + rewrite !decide_True by done. split_and!; try done.
      intros x Hne. by rewrite !decide_False.
    + rewrite !decide_True by done. split_and!; try done.
      intros x Hne. by rewrite !decide_False.
Qed.



(** X5.  No frame changes a role or removes a subscription: whatever a
    connection sends, [clients.consumers] and [clients.producers] are what
    they were, every member of a device set is still a member of it, and
    the only connection that can have entered a set is the sender. *)
Theorem no_frame_changes_a_role_or_unsubscribes ws message now w :
  let w' := (on_message ws message now w).2 in
  consumers (clients w') = consumers (clients w) ∧
  producers (clients w') = producers (clients w) ∧
  (∀ d s x, deviceSubscriptions (clients w) !! d = Some s → x ∈ s →
     ∃ s', deviceSubscriptions (clients w') !! d = Some s' ∧ x ∈ s') ∧
  (∀ d s' x, deviceSubscriptions (clients w') !! d = Some s' → x ∈ s' →
     x = ws ∨ ∃ s, deviceSubscriptions (clients w) !! d = Some s ∧ x ∈ s).
Proof.
  cbv zeta. destruct (on_message_clients ws message now w) as [->|(d0 & Hd0 & ->)].
  - split_and!; [done|done|eauto|eauto].
  - split_and!; [done|done| |].
    + intros d s x Hs Hx. destruct (decide (d = d0)) as [->|Hne].
      * rewrite subscribed_lookup, Hs. eexists. split; [done|].
        apply elem_of_Set_add. by right.
      * rewrite subscribed_lookup_ne by done. eauto.
    + intros d s' x Hs' Hx. destruct (decide (d = d0)) as [->|Hne].
      * rewrite subscribed_lookup in Hs'. injection Hs' as <-.
        apply elem_of_Set_add in Hx as [->|Hx]; [by left|right].
        destruct (deviceSubscriptions (clients w) !! d0) as [s|]; [by exists s|].
        by apply elem_of_nil in Hx.
      * rewrite subscribed_lookup_ne in Hs' by done. eauto.
Qed.

Lemma subscribed_member d ws c s :
  deviceSubscriptions c !! d = Some s → ws ∈ s → subscribed d ws c = c.
Proof.
  intros Hs Hin. unfold subscribed. rewrite decide_False by (by rewrite Hs).
  destruct c as [cs ps m]. cbn in *. unfold set_deviceSubscriptions. cbn. f_equal.
  apply map_eq. intros k. destruct (decide (k = d)) as [->|Hne].
  - rewrite lookup_alter_eq, Hs. cbn. unfold Set_add. by rewrite decide_True.
  - by rewrite lookup_alter_ne.
Qed.

(** X6.  Subscribing again to a device one is already subscribed to changes
    nothing in the registry: the Set holds the connection once.  The server
    still confirms: an open sender is written one more
    [subscription_confirmed]. *)
Theorem repeated_subscribe_changes_no_set ws o d s now w :
  o !! "type" = Some "subscribe" → o !! "deviceId" = Some d → d ≠ EmptyString →
  deviceSubscriptions (clients w) !! d = Some s → ws ∈ s →
  ∃ w', on_message ws (JsonText (JObject o)) now w = (Normal (), w') ∧
    clients w' = clients w ∧
    (readyState (heap w ws) = 1%Z →
       delivered_once (subscription_confirmed d now) w w' ws).
Proof.
  intros Hty Hd Hne Hs Hin.
  destruct (on_message_returns ws (JsonText (JObject o)) now w) as [w' Hrun].
  exists w'. split; [exact Hrun|]. split.
  - pose proof (on_message_subscribe_clients ws o d now w Hty Hd Hne) as Hc.
    rewrite Hrun in Hc. cbn [snd] in Hc. by rewrite Hc, (subscribed_member d ws _ s).
  - intros Ho. rewrite (on_message_subscribe ws o d now w Hty Hd Hne Ho) in Hrun.
    injection Hrun as <-. unfold delivered_once. cbn. unfold update.
    by rewrite !decide_True.
Qed.

(** ** From a subscription to the telemetry received *)





(** ** The close handler *)

Lemma closed_lookup ws c d s' :
  deviceSubscriptions (cleanup_empty (consumer_removed ws (producer_deleted ws c))) !! d
    = Some s' ↔
  ∃ s, deviceSubscriptions c !! d = Some s ∧ s' = Set_delete ws s ∧ s' ≠ [].
Proof.
  cbn. rewrite map_lookup_filter_Some, lookup_fmap, fmap_Some. cbn. split.
  - intros [(s & Hs & ->) Hlen]. exists s. split_and!; [done|done|].
    intros E. by rewrite E in Hlen.
  - intros (s & Hs & -> & Hne). split; [by exists s|].
    by destruct (Set_delete ws s).
Qed.

(** X9.  The close handler forgets the connection and nobody else: the
    closed connection is afterwards in neither role set and in no device
    set, every other connection is in exactly the role sets and device sets
    it was in, and the handler writes to no channel and to no log. *)
Theorem close_forgets_the_connection_and_nobody_else ws w :
  ∃ w', on_close ws w = (Normal (), w') ∧
    ¬ referenced ws (clients w') ∧
    (∀ x, x ≠ ws →
       (x ∈ consumers (clients w') ↔ x ∈ consumers (clients w)) ∧
       (x ∈ producers (clients w') ↔ x ∈ producers (clients w)) ∧
       ∀ d, (∃ s', deviceSubscriptions (clients w') !! d = Some s' ∧ x ∈ s') ↔
            (∃ s, deviceSubscriptions (clients w) !! d = Some s ∧ x ∈ s)) ∧
    heap w' = heap w ∧ stderr w' = stderr w.
Proof.
  eexists. split; [reflexivity|].
  change (clients (mkWorld ?c _ _)) with c.
  change (cleanup_empty _) with
    (cleanup_empty (consumer_removed ws (producer_deleted ws (clients w)))).
  split_and!; [| |done|done].
  - intros [Hc|[Hp|(d & s' & Hs' & Hin)]].
    + cbn in Hc. by apply elem_of_Set_delete in Hc as [? _].
    + cbn in Hp. by apply elem_of_Set_delete in Hp as [? _].
    + apply closed_lookup in Hs' as (s & _ & -> & _).
      by apply elem_of_Set_delete in Hin as [? _].
  - intros x Hne. split_and!.
    + change (consumers (cleanup_empty _)) with (Set_delete ws (consumers (clients w))).
      rewrite elem_of_Set_delete. tauto.
    + change (producers (cleanup_empty _)) with (Set_delete ws (producers (clients w))).
      rewrite elem_of_Set_delete. tauto.
    + intros d. split.
      * intros (s' & (s & Hs & -> & _)%closed_lookup & Hin).
        exists s. split; [done|]. by apply elem_of_Set_delete in Hin as [_ ?].
      * intros (s & Hs & Hin).
        assert (Hin' : x ∈ Set_delete ws s) by by apply elem_of_Set_delete.
        exists (Set_delete ws s). split; [|done]. apply closed_lookup.
        exists s. split_and!; [done|done|]. intros E. rewrite E in Hin'.
        by apply elem_of_nil in Hin'.
Qed.

(** ** The sweep, connection by connection *)

Lemma filter_all {A} (P : A → Prop) `{!∀ x, Decision (P x)} (l : list A) :
  (∀ x, P x) → filter P l = l.
Proof.
  intros HP. induction l as [|a l IH]; [done|]. by rewrite filter_cons_True, IH.
Qed.

Lemma reaped_consumers_lookup (P : conn → bool) l c d :
  deviceSubscriptions (reaped consumer_removed P l c) !! d
  = filter (λ x, ¬ (x ∈ l ∧ P x)) <$> deviceSubscriptions c !! d.
Proof.
  revert c. induction l as [|a l IH]; intros c.
  - cbn. destruct (deviceSubscriptions c !! d) as [s|]; [|done]. cbn. f_equal.
    symmetry. apply filter_all. intros x [Hx _]. by apply elem_of_nil in Hx.
  - rewrite reaped_cons. destruct (P a) eqn:HPa; rewrite IH.
    + cbn. rewrite lookup_fmap.
      destruct (deviceSubscriptions c !! d) as [s|]; [|done]. cbn. f_equal.
      unfold Set_delete. rewrite list_filter_filter. apply list_filter_iff.
      intros x. rewrite elem_of_cons. split.
      * intros [Hn Hne] [[->|Hl] HP]; [done|]. by apply Hn.
      * intros Hn. split.
        -- intros [Hl HP]. apply Hn. split; [by right|done].
        -- intros ->. apply Hn. split; [by left|by rewrite HPa].
    + destruct (deviceSubscriptions c !! d) as [s|]; [|done]. cbn. f_equal.
      apply list_filter_iff. intros x. rewrite elem_of_cons. split.
      * intros Hn [[->|Hl] HP]; [by rewrite HPa in HP|]. by apply Hn.
      * intros Hn [Hl HP]. apply Hn. split; [by right|done].
Qed.

(** Who is registered where after a completed sweep. *)
Lemma sweep_membership now w :
  wf (clients w) →
  let past := λ x, idle (getTime now) (heap w x) in
  ∃ w', heartbeat node_with_WebSocket now w = (Normal (), w') ∧
    (∀ y, heap w' y =
       (if decide (y ∈ consumers (clients w)) then swept (getTime now) else id)
         ((if decide (y ∈ producers (clients w)) then swept (getTime now) else id)
            (heap w y))) ∧
    ∀ x,
      (x ∈ producers (clients w') ↔ x ∈ producers (clients w) ∧ ¬ past x) ∧
      (x ∈ consumers (clients w') ↔ x ∈ consumers (clients w) ∧ ¬ past x) ∧
      ∀ d, (∃ s', deviceSubscriptions (clients w') !! d = Some s' ∧ x ∈ s') ↔
           (∃ s, deviceSubscriptions (clients w) !! d = Some s ∧ x ∈ s) ∧
           ¬ (x ∈ consumers (clients w) ∧ past x).
Proof.
  intros Hwf past.
  destruct (heartbeat_with_WebSocket now w Hwf) as (w' & Hrun & Hcl & Hheap).
  cbv zeta in Hcl. fold past in Hcl.
  exists w'. split; [done|]. split; [done|]. intros x.
  destruct (reaped_producers past (producers (clients w)) (clients w))
    as (Hcons1 & Hsubs1 & Hprod1).
  destruct (reaped_consumers past (consumers (clients w))
              (reaped producer_deleted past (producers (clients w)) (clients w)))
    as (Hprod2 & Hcons2 & _).
  rewrite Hcl. split_and!.
  - cbn [cleanup_empty set_deviceSubscriptions producers]. rewrite Hprod2, Hprod1. tauto.
  - cbn [cleanup_empty set_deviceSubscriptions consumers]. rewrite Hcons2, Hcons1. tauto.
  - intros d. cbn [cleanup_empty set_deviceSubscriptions deviceSubscriptions].
    setoid_rewrite map_lookup_filter_Some. setoid_rewrite reaped_consumers_lookup.
    rewrite Hsubs1. setoid_rewrite fmap_Some. split.
    + intros (s' & [(s & Hs & ->) _] & [Hin Hn]%list_elem_of_filter). eauto.
    + intros [(s & Hs & Hin) Hn].
      assert (Hin' : x ∈ filter (λ x, ¬ (x ∈ consumers (clients w) ∧ past x)) s)
        by by apply list_elem_of_filter.
      eexists. split; [split; [by exists s|]|done]. cbn.
      intros Hlen. apply nil_length_inv in Hlen. rewrite Hlen in Hin'.
      by apply elem_of_nil in Hin'.
Qed.

Lemma terminated_swept now s : terminated (swept now s) = terminated s || idle now s.
Proof.
  unfold swept. destruct (idle now s); [by rewrite orb_true_r|].
  rewrite orb_false_r. by case_decide.
Qed.

Lemma idle_swept now s : idle now (swept now s) = idle now s.
Proof. unfold idle. by rewrite lastActivity_swept. Qed.

(** X10.  On a runtime whose global [WebSocket.OPEN] is 1 the sweep reaps
    exactly the registered connections that are past the deadline of 120
    seconds.  It completes; a connection is in a role set afterwards when it
    was in it and is within the deadline; a connection is in a device set
    afterwards when it was in it and is not a consumer past the deadline (so
    that a subscriber which is no consumer stays); and the connections
    terminated by the sweep are those in a role set and past the
    deadline. *)
Theorem sweep_reaps_exactly_the_idle now w :
  wf (clients w) →
  let past := λ x, idle (getTime now) (heap w x) in
  ∃ w', heartbeat node_with_WebSocket now w = (Normal (), w') ∧
    ∀ x,
      (x ∈ producers (clients w') ↔ x ∈ producers (clients w) ∧ ¬ past x) ∧
      (x ∈ consumers (clients w') ↔ x ∈ consumers (clients w) ∧ ¬ past x) ∧
      (∀ d, (∃ s', deviceSubscriptions (clients w') !! d = Some s' ∧ x ∈ s') ↔
            (∃ s, deviceSubscriptions (clients w) !! d = Some s ∧ x ∈ s) ∧
            ¬ (x ∈ consumers (clients w) ∧ past x)) ∧
      terminated (heap w' x)
      = terminated (heap w x)
        || bool_decide (x ∈ producers (clients w) ∨ x ∈ consumers (clients w)) && past x.
Proof.
  intros Hwf past. destruct (sweep_membership now w Hwf) as (w' & Hrun & Hheap & Hmem).
  exists w'. split; [done|]. intros x. destruct (Hmem x) as (Hp & Hc & Hd).
  split_and!; [done|done|done|]. rewrite Hheap. unfold past.
  destruct (decide (x ∈ producers (clients w))) as [Hxp|Hxp],
    (decide (x ∈ consumers (clients w))) as [Hxc|Hxc]; cbn.
  - rewrite !terminated_swept, idle_swept, bool_decide_eq_true_2 by by left.
    by destruct (terminated _), (idle _ _).
  - rewrite terminated_swept, bool_decide_eq_true_2 by by left. done.
  - rewrite terminated_swept, bool_decide_eq_true_2 by by right. done.
  - rewrite bool_decide_eq_false_2 by (by intros [?|?]). by rewrite orb_false_r.
Qed.

Lemma on_message_lastActivity ws data now w :
  lastActivity (heap (on_message ws (JsonText data) now w).2 ws) = getTime now.
Proof.
  rewrite on_message_unfold. unfold try_catch, bind. cbn [JSON_parse ret modify_socket].
  set (w1 := mkWorld _ _ _).
  pose proof (same_sockets_dispatch ws data now w1) as Hd.
  assert (H1 : lastActivity (heap w1 ws) = getTime now).
  { cbn. unfold update. by rewrite decide_True. }
  destruct (dispatch ws data now w1) as [[[]|e] w2]; cbn in *.
  - by destruct (Hd ws) as (_ & _ & -> & _).
  - by destruct (Hd ws) as (_ & _ & -> & _).
Qed.

(** X11.  Activity keeps a connection.  After a pong or a frame that parses
    has arrived from a connection, a sweep that runs no later than 120
    seconds afterwards neither terminates the connection nor removes it
    from any set it is in.  (A frame that does not parse is no activity: it
    leaves the timestamp where it was.) *)
Theorem activity_within_the_deadline_spares_the_connection ev ws now now' w :
  wf (clients w) →
  ev = Pong ws ∨ (∃ data, ev = Message ws (JsonText data)) →
  (getTime now' - getTime now ≤ 120000)%Z →
  ∃ w1 w2, handle node_with_WebSocket now ev w = (Normal (), w1) ∧
    heartbeat node_with_WebSocket now' w1 = (Normal (), w2) ∧
    terminated (heap w2 ws) = terminated (heap w1 ws) ∧
    (ws ∈ producers (clients w2) ↔ ws ∈ producers (clients w1)) ∧
    (ws ∈ consumers (clients w2) ↔ ws ∈ consumers (clients w1)) ∧
    ∀ d, (∃ s', deviceSubscriptions (clients w2) !! d = Some s' ∧ ws ∈ s') ↔
         (∃ s, deviceSubscriptions (clients w1) !! d = Some s ∧ ws ∈ s).
Proof.
  intros Hwf Hev Hdl.
  assert (H1 : ∃ w1, handle node_with_WebSocket now ev w = (Normal (), w1) ∧
                     lastActivity (heap w1 ws) = getTime now).
  { destruct Hev as [->|[data ->]].
    - eexists. split; [reflexivity|]. cbn. unfold update. by rewrite !decide_True.
    - cbn [handle]. destruct (on_message_returns ws (JsonText data) now w) as [w1 Hrun].
      exists w1. split; [done|].
      pose proof (on_message_lastActivity ws data now w) as Hl. by rewrite Hrun in Hl. }
  destruct H1 as (w1 & Hrun1 & Hact).
  assert (Hwf1 : wf (clients w1)).
  { pose proof (wf_handle node_with_WebSocket now ev w Hwf) as H. by rewrite Hrun1 in H. }
  destruct (sweep_membership now' w1 Hwf1) as (w2 & Hrun2 & Hheap & Hmem).
  assert (Hnot : idle (getTime now') (heap w1 ws) = false).
  { unfold idle. apply bool_decide_eq_false_2. rewrite Hact. lia. }
  exists w1, w2. split; [done|]. split; [done|].
  destruct (Hmem ws) as (Hp & Hc & Hd). rewrite Hnot in Hp, Hc, Hd.
  split_and!.
  - rewrite Hheap. repeat case_decide; cbn;
      rewrite ?terminated_swept, ?idle_swept, ?Hnot, ?orb_false_r; done.
  - rewrite Hp. split; [tauto|]. intros ?. split; [done|by intros []].
  - rewrite Hc. split; [tauto|]. intros ?. split; [done|by intros []].
  - intros d. rewrite Hd. split; [tauto|]. intros ?. split; [done|by intros [_ []]].
Qed.

(** ** The sweep without a global [WebSocket], whatever the state *)

(** X12.  Where the runtime defines no global [WebSocket], the sweep never
    pings: whatever the state, it writes to no channel.  It completes
    exactly when every member of the two role sets is past the deadline (in
    particular when nobody is connected), and throws a [ReferenceError] as
    soon as it meets a member within the deadline. *)
Theorem sweep_without_WebSocket_completes_iff_all_idle rt now w :
  WebSocket_OPEN rt = None →
  ∃ w', heartbeat rt now w =
          (if forallb (λ x, idle (getTime now) (heap w x))
                (producers (clients w) ++ consumers (clients w))
           then Normal () else Throw ReferenceError, w') ∧
    ∀ x, sent (heap w' x) = sent (heap w x).
Proof.
  intros Hrt. set (t := getTime now).
  pose proof (forEach_until_active t quiet_for_consumers (check_producer rt t)
    (λ _ _ H, proj1 H) (λ x, proj1 (check_producer_unbound rt Hrt t x))
    (λ x, proj2 (check_producer_unbound rt Hrt t x)) (producers (clients w)) w) as H1.
  pose proof (preserves_forEach quiet_for_consumers (producers (clients w))
    (check_producer rt t) (λ x, proj1 (check_producer_unbound rt Hrt t x)) w) as [Hq1 Hc1].
  unfold heartbeat. fold t. unfold bind. cbn [get_clients].
  destruct (forEach (producers (clients w)) (check_producer rt t) w) as [r1 w1].
  cbn [fst snd] in H1, Hq1, Hc1. subst r1. rewrite forallb_app.
  destruct (forallb _ (producers (clients w))) eqn:Hall; cbn [andb].
  - pose proof (forEach_until_active t quiet (check_consumer rt t)
      (λ _ _ H, H) (λ x, proj1 (check_consumer_unbound rt Hrt t x))
      (λ x, proj2 (check_consumer_unbound rt Hrt t x)) (consumers (clients w1)) w1) as H2.
    pose proof (preserves_forEach quiet (consumers (clients w1))
      (check_consumer rt t) (λ x, proj1 (check_consumer_unbound rt Hrt t x)) w1) as Hq2.
    destruct (forEach (consumers (clients w1)) (check_consumer rt t) w1) as [r2 w2].
    cbn [fst snd] in H2, Hq2. subst r2. rewrite Hc1.
    assert (Hsame : ∀ x, idle t (heap w1 x) = idle t (heap w x)).
    { intros x. unfold idle. by destruct (Hq1 x) as [-> _]. }
    rewrite (forallb_pointwise _ _ (consumers (clients w)) Hsame).
    assert (Hsent : ∀ x, sent (heap w2 x) = sent (heap w x)).
    { intros x. destruct (Hq1 x) as [_ E1], (Hq2 x) as [_ E2]. congruence. }
    destruct (forallb _ (consumers (clients w))); eexists; (split; [reflexivity|done]).
  - eexists. split; [reflexivity|]. intros x. by destruct (Hq1 x).
Qed.

(** ** One role for each connection *)

(** X13.  No connection is registered twice: in every state the process
    can reach, the members of [clients.producers] followed by the members
    of [clients.consumers] form a list without repetition, so that a
    connection has one role and each loop of the sweep and of the broadcasts
    meets it once. *)
Theorem no_connection_is_registered_twice rt w :
  reachable rt w → NoDup (producers (clients w) ++ consumers (clients w)).
Proof.
  intros Hw. destruct (reachable_wf rt w Hw) as (Hc & Hp & _).
  apply NoDup_app. split_and!; [done| |done].
  apply (reachable_roles_disjoint rt w Hw).
Qed.

(** ** Who is sent a broadcast *)



(** ** What the broadcast messages carry *)

(** X16.  What the broadcast messages carry.  Every field of the data other
    than [type] and [timestamp] is passed on unchanged and nothing is added.
    The spread of the data comes last, so that a [type] in the data replaces
    the literal [telemetry] or [alarm].  A telemetry message carries the
    data's timestamp, or the time of the broadcast when the data has none or
    an empty one; an alarm message carries the data's timestamp whenever it
    has one, empty or not, and the time of the broadcast otherwise. *)
Theorem broadcast_messages_carry_the_data data now :
  let t := telemetry_message data now in
  let a := alarm_message data now in
  (∀ k, k ≠ "type" → k ≠ "timestamp" → t !! k = data !! k ∧ a !! k = data !! k) ∧
  t !! "type" = Some (default "telemetry" (data !! "type")) ∧
  a !! "type" = Some (default "alarm" (data !! "type")) ∧
  t !! "timestamp"
    = (if truthy (data !! "timestamp") then data !! "timestamp"
       else Some (toISOString now)) ∧
  a !! "timestamp" = Some (default (toISOString now) (data !! "timestamp")).
Proof.
  cbv zeta. unfold telemetry_message, alarm_message, with_timestamp. split_and!.
  - intros k Hty Hts. rewrite !lookup_union.
    rewrite !lookup_insert_ne, !lookup_singleton_ne by done.
    destruct (truthy _); rewrite ?lookup_insert_ne by done;
      by destruct (data !! k).
  - rewrite lookup_union, lookup_insert_eq.
    destruct (truthy _); rewrite ?lookup_insert_ne by done; by destruct (data !! "type").
  - rewrite lookup_union, lookup_insert_eq. by destruct (data !! "type").
  - rewrite lookup_union, lookup_insert_ne, lookup_singleton_eq by done.
    destruct (truthy (data !! "timestamp")) eqn:E.
    + by destruct (data !! "timestamp").
    + by rewrite !lookup_insert_eq.
  - rewrite lookup_union, lookup_insert_ne, lookup_singleton_eq by done.
    by destruct (data !! "timestamp").
Qed.

(** ** The further properties at work on concrete runs *)

Lemma four_clients_reachable : reachable node_with_WebSocket four_clients.
Proof.
  unfold four_clients, run. cbn [foldl fst snd].
  repeat (apply reachable_next; [| apply (bool_decide_unpack _); by vm_compute | by vm_compute]).
  apply reachable_initial.
Qed.



Lemma ping_frame_is_answered_to_sender_only_witness :
  ping_frame !! "type" = Some "ping" ∧
  ∃ w', on_message 2 (JsonText (JObject ping_frame)) T30 four_clients = (Normal (), w') ∧
    clients w' = clients four_clients ∧
    heap w' 2 =
      (if decide (readyState (heap four_clients 2) = 1%Z)
       then push_frame (Text (pong_message T30)) else id)
        (set_lastActivity (getTime T30) (heap four_clients 2)) ∧
    (∀ x, x ≠ 2 → heap w' x = heap four_clients x) ∧
    stderr w' =
      (if decide (readyState (heap four_clients 2) = 0%Z)
       then stderr four_clients ++ [("Error parsing message:", NotOpenError)]
       else stderr four_clients)%list ∧
    pong_message T30 !! "timestamp" = Some (toISOString T30).
Proof.
  split; [vm_compute; reflexivity|].
  apply ping_frame_is_answered_to_sender_only. vm_compute; reflexivity.
Defined.


Lemma repeated_subscribe_changes_no_set_witness :
  deviceSubscriptions (clients four_clients) !! "d1" = Some [1] ∧
  readyState (heap four_clients 1) = 1%Z ∧
  ∃ w', on_message 1 (subscribe_frame "d1") T30 four_clients = (Normal (), w') ∧
    clients w' = clients four_clients ∧
    delivered_once (subscription_confirmed "d1" T30) four_clients w' 1.
Proof.
  split; [vm_compute; reflexivity|]. split; [vm_compute; reflexivity|].
  destruct (repeated_subscribe_changes_no_set 1
              {[ "type" := "subscribe"; "deviceId" := "d1" ]} "d1" [1] T30 four_clients)
    as (w' & Hrun & Hc & Hreply).
  - vm_compute; reflexivity.
  - vm_compute; reflexivity.
  - done.
  - vm_compute; reflexivity.
  - apply list_elem_of_here.
  - exists w'. split; [exact Hrun|]. split; [exact Hc|]. apply Hreply.
    vm_compute; reflexivity.
Defined.



Lemma sweep_reaps_exactly_the_idle_witness :
  wf (clients d1_consumer_idle) ∧
  idle (getTime T200) (heap d1_consumer_idle 1) = true ∧
  idle (getTime T200) (heap d1_consumer_idle 2) = false ∧
  ∃ w', heartbeat node_with_WebSocket T200 d1_consumer_idle = (Normal (), w') ∧
    (1 ∉ consumers (clients w')) ∧ 2 ∈ consumers (clients w') ∧
    terminated (heap w' 1) = true ∧ terminated (heap w' 2) = false.
Proof.
  assert (Hwf : wf (clients d1_consumer_idle))
    by (apply (bool_decide_unpack _); by vm_compute).
  assert (H1 : idle (getTime T200) (heap d1_consumer_idle 1) = true)
    by (vm_compute; reflexivity).
  assert (H2 : idle (getTime T200) (heap d1_consumer_idle 2) = false)
    by (vm_compute; reflexivity).
  split; [exact Hwf|]. split; [exact H1|]. split; [exact H2|].
  destruct (sweep_reaps_exactly_the_idle T200 d1_consumer_idle Hwf) as (w' & Hrun & Hall).
  exists w'. split; [exact Hrun|].
  destruct (Hall 1) as (_ & Hc1 & _ & Ht1), (Hall 2) as (_ & Hc2 & _ & Ht2).
  rewrite H1 in Hc1, Ht1. rewrite H2 in Hc2, Ht2. split_and!.
  - intros [_ Hn]%Hc1. by apply Hn.
  - apply Hc2. split; [|by intros []]. apply (bool_decide_unpack _). by vm_compute.
  - rewrite Ht1. vm_compute; reflexivity.
  - rewrite Ht2. vm_compute; reflexivity.
Defined.

Lemma activity_within_the_deadline_spares_the_connection_witness :
  wf (clients four_clients) ∧ (getTime T200 - getTime T170 ≤ 120000)%Z ∧
  ∃ w1 w2, handle node_with_WebSocket T170 (Pong 1) four_clients = (Normal (), w1) ∧
    heartbeat node_with_WebSocket T200 w1 = (Normal (), w2) ∧
    terminated (heap w2 1) = terminated (heap w1 1) ∧
    (1 ∈ producers (clients w2) ↔ 1 ∈ producers (clients w1)) ∧
    (1 ∈ consumers (clients w2) ↔ 1 ∈ consumers (clients w1)) ∧
    ∀ d, (∃ s', deviceSubscriptions (clients w2) !! d = Some s' ∧ 1 ∈ s') ↔
         (∃ s, deviceSubscriptions (clients w1) !! d = Some s ∧ 1 ∈ s).
Proof.
  split; [exact four_clients_wf|]. split; [vm_compute; discriminate|].
  apply (activity_within_the_deadline_spares_the_connection (Pong 1) 1 T170 T200
           four_clients four_clients_wf); [by left|vm_compute; discriminate].
Defined.

Lemma sweep_without_WebSocket_completes_iff_all_idle_witness :
  WebSocket_OPEN node_without_WebSocket = None ∧
  (∃ w', heartbeat node_without_WebSocket T200 initial = (Normal (), w') ∧
     ∀ x, sent (heap w' x) = sent (heap initial x)) ∧
  (∃ w', heartbeat node_without_WebSocket T30 four_clients = (Throw ReferenceError, w') ∧
     ∀ x, sent (heap w' x) = sent (heap four_clients x)).
Proof.
  split; [reflexivity|]. split.
  - exact (sweep_without_WebSocket_completes_iff_all_idle node_without_WebSocket T200
             initial eq_refl).
  - exact (sweep_without_WebSocket_completes_iff_all_idle node_without_WebSocket T30
             four_clients eq_refl).
Defined.

Lemma no_connection_is_registered_twice_witness :
  reachable node_with_WebSocket four_clients ∧
  NoDup (producers (clients four_clients) ++ consumers (clients four_clients)).
Proof.
  split; [exact four_clients_reachable|].
  exact (no_connection_is_registered_twice _ _ four_clients_reachable).
Defined.



Lemma no_frame_changes_a_role_or_unsubscribes_witness :
  deviceSubscriptions (clients four_clients) !! "d1" = Some [1] ∧
  let w' := (on_message 1 (subscribe_frame "d2") T30 four_clients).2 in
  consumers (clients w') = consumers (clients four_clients) ∧
  producers (clients w') = producers (clients four_clients) ∧
  ∃ s', deviceSubscriptions (clients w') !! "d1" = Some s' ∧ 1 ∈ s'.
Proof.
  assert (Hs : deviceSubscriptions (clients four_clients) !! "d1" = Some [1])
    by (vm_compute; reflexivity).
  split; [exact Hs|].
  destruct (no_frame_changes_a_role_or_unsubscribes 1 (subscribe_frame "d2") T30
              four_clients) as (Hc & Hp & Hkeep & _).
  split; [exact Hc|]. split; [exact Hp|].
  apply (Hkeep "d1" [1] 1 Hs). apply list_elem_of_here.
Defined.

Lemma close_forgets_the_connection_and_nobody_else_witness :
  3 ≠ 1 ∧ deviceSubscriptions (clients four_clients) !! "d2" = Some [3] ∧
  ∃ w', on_close 1 four_clients = (Normal (), w') ∧
    ¬ referenced 1 (clients w') ∧
    ∃ s', deviceSubscriptions (clients w') !! "d2" = Some s' ∧ 3 ∈ s'.
Proof.
  assert (Hs : deviceSubscriptions (clients four_clients) !! "d2" = Some [3])
    by (vm_compute; reflexivity).
  split; [done|]. split; [exact Hs|].
  destruct (close_forgets_the_connection_and_nobody_else 1 four_clients)
    as (w' & Hrun & Hgone & Hothers & _).
  exists w'. split; [exact Hrun|]. split; [exact Hgone|].
  destruct (Hothers 3) as (_ & _ & Hd); [done|].
  apply Hd. exists [3]. split; [exact Hs|apply list_elem_of_here].
Defined.

Lemma reachable_no_empty_set_witness :
  reachable node_with_WebSocket four_clients ∧ no_empty_set (clients four_clients).
Proof.
  split; [exact four_clients_reachable|].
  exact (reachable_no_empty_set _ _ four_clients_reachable).
Defined.

Lemma reachable_sweep_pings_witness :
  reachable node_with_WebSocket four_clients ∧
  1 ∈ consumers (clients four_clients) ∧
  (getTime T30 - lastActivity (heap four_clients 1) ≤ 120000)%Z ∧
  readyState (heap four_clients 1) = 1%Z ∧
  ∃ w', heartbeat node_with_WebSocket T30 four_clients = (Normal (), w') ∧
    sent (heap w' 1) = (sent (heap four_clients 1) ++ [Ping])%list.
Proof.
  assert (Hc : 1 ∈ consumers (clients four_clients))
    by (apply (bool_decide_unpack _); by vm_compute).
  assert (Ht : (getTime T30 - lastActivity (heap four_clients 1) ≤ 120000)%Z)
    by (vm_compute; discriminate).
  assert (Ho : readyState (heap four_clients 1) = 1%Z) by (vm_compute; reflexivity).
  split; [exact four_clients_reachable|]. split; [exact Hc|]. split; [exact Ht|].
  split; [exact Ho|].
  exact (reachable_sweep_pings T30 four_clients 1 four_clients_reachable (or_intror Hc) Ht Ho).
Defined.

Lemma subscribers_are_consumers_check c :
  map_Forall (λ _ s, Forall (λ x, x ∈ consumers c) s) (deviceSubscriptions c) →
  subscribers_are_consumers c.
Proof.
  intros Hall d s x Hs Hin. specialize (Hall d s Hs). rewrite Forall_forall in Hall.
  by apply Hall.
Qed.

Lemma subscribers_are_consumers_kept_witness :
  1 ∈ consumers (clients four_clients) ∧
  subscribers_are_consumers (clients four_clients) ∧
  subscribers_are_consumers
    (clients (handle node_with_WebSocket T30 (Message 1 (subscribe_frame "d2"))
                four_clients).2).
Proof.
  assert (Hc : 1 ∈ consumers (clients four_clients))
    by (apply (bool_decide_unpack _); by vm_compute).
  assert (Hs : subscribers_are_consumers (clients four_clients))
    by (apply subscribers_are_consumers_check, (bool_decide_unpack _); by vm_compute).
  split; [exact Hc|]. split; [exact Hs|].
  apply subscribers_are_consumers_kept; [|exact Hs].
  intros ws message Hev. injection Hev as <- _. exact Hc.
Defined.

(** * The dashboard's telemetry cache *)








(** * Loading the routes *)

(** X23.  A route module that fails to load takes with it every module
    required after it.  [initializeRoutes] always mounts the six paths in
    the same order; a path is served by its module (for the telemetry path,
    by the real routes if they load and by the mock otherwise) exactly when
    that module and a module for each path before it have loaded, and by an
    empty router in every other case. *)
Theorem failed_route_module_disables_the_later_ones loads :
  ∀ i mount candidates, required_in_order !! i = Some (mount, candidates) →
    initializeRoutes loads !! i =
    Some (mount,
          if forallb (λ earlier, bool_decide (first_loading loads earlier.2 ≠ None))
               (take i required_in_order)
          then or_empty_router (first_loading loads candidates)
          else empty_router).
Proof.
  intros i mount candidates Hi.
  unfold initializeRoutes, load_routes, require. unfold required_in_order in *.
  do 6 (destruct i as [|i]; [injection Hi as <- <-;
    cbn [lookup list_lookup take forallb first_loading snd];
    generalize (loads "./routes/authRoutes"), (loads "./routes/plantRoutes"),
      (loads "./routes/deviceRoutes"), (loads "./routes/telemetryRoutes"),
      (loads "./routes/telemetryMock"), (loads "./routes/azureDevice"),
      (loads "./routes/alarmRoutes");
    intros [] [] [] [] [] [] []; reflexivity|]).
  done.
Qed.

Lemma failed_route_module_disables_the_later_ones_witness :
  required_in_order !! 4 = Some ("/api/azure", ["./routes/azureDevice"]) ∧
  initializeRoutes (λ path, bool_decide (path ≠ "./routes/telemetryRoutes")) !! 3
    = Some ("/api/telemetry", module_router "./routes/telemetryMock") ∧
  initializeRoutes (λ path, bool_decide (path ≠ "./routes/deviceRoutes")) !! 4
    = Some ("/api/azure", empty_router).
Proof.
  split; [reflexivity|]. split.
  - exact (failed_route_module_disables_the_later_ones
             (λ path, bool_decide (path ≠ "./routes/telemetryRoutes")) 3 "/api/telemetry"
             ["./routes/telemetryRoutes"; "./routes/telemetryMock"] eq_refl).
  - exact (failed_route_module_disables_the_later_ones
             (λ path, bool_decide (path ≠ "./routes/deviceRoutes")) 4 "/api/azure"
             ["./routes/azureDevice"] eq_refl).
Defined.

(** * The mock telemetry routes *)

Section mock_routes.
Import telemetryMock.








End mock_routes.
